(** * GUI-to-Mermaid: the diagram editor of [main.py]

    A shallow embedding of the classes [Node], [Edge] and [DiagramEditor]
    of [src/main.py], and the properties of the id generator, the
    event handlers and the Mermaid serializer.

    Conventions of the embedding.
    - A Python [str] is a [string]; a character is a code point below 256.
    - A Python [int] is a [Z] (a [nat] for the node counter, which starts
      at 0 and is only ever incremented).  The true division [/] yields a
      rational: centres and canvas coordinates are in [Q].
    - A [dict] is an association list in insertion order; assigning to an
      existing key keeps its position, as in Python.
    - A [Node] object is identified by its [id]: the editor's node store is
      the dict [nodes], and every reference to a node ([Edge.source],
      [arrow_source], [dragging_node], ...) is the id of that node.  Ids
      are never reused and nodes are never removed, so an id designates one
      object for the whole run (see [step_inv] below).
    - Drawing calls on the tk canvas are outside the program; of the canvas
      we keep the coordinates of the line and of the label of every edge,
      and the position of the editor window. *)

From Stdlib Require Import ZArith QArith List String Ascii Bool Lia.
From Stdlib Require Import DecimalString DecimalNat.
Import ListNotations.
Local Open Scope string_scope.
Local Open Scope Z_scope.

(** ** Python preliminaries *)

(** Exceptions.  [AttributeError a]: the attribute [a] was read on an
    object that has none.  [KeyError k]: a dict was read at a key [k] it
    does not have.  [Dangling r] is not a Python exception: it
    marks a reference [r] to a node that is not in the store, which never
    happens in a run of the editor ([handler_no_dangling]). *)
Inductive exn : Type :=
| AttributeError (attr : string)
| KeyError (key : string)
| Dangling (ref : string).

Inductive outcome (A : Type) : Type :=
| Return (a : A)
| Raise (e : exn).
Arguments Return {A} a.
Arguments Raise {A} e.

Definition obind {A B : Type} (c : outcome A) (k : A -> outcome B) : outcome B :=
  match c with
  | Return a => k a
  | Raise e => Raise e
  end.

Declare Scope outcome_scope.
Delimit Scope outcome_scope with outcome.
Notation "'let?' x ':=' c 'in' k" := (obind c (fun x => k))
  (at level 10, x pattern, c at level 100, k at level 200)
  : outcome_scope.
Local Open Scope outcome_scope.

(** Reading an attribute that may never have been set. *)
Definition getattr {A : Type} (name : string) (field : option A) : outcome A :=
  match field with
  | Some a => Return a
  | None => Raise (AttributeError name)
  end.

(** [str(n)] for a non-negative [int]. *)
Definition str (n : nat) : string := NilEmpty.string_of_uint (Nat.to_uint n).

(** [chr(n)], for [n < 256]. *)
Definition chr (n : nat) : string := String (ascii_of_nat n) EmptyString.

(** [s.lower()], character by character: on code points below 256 the
    upper-case letters are [A]..[Z] and 0xC0..0xDE without 0xD7. *)
Definition lower_char (c : ascii) : ascii :=
  let n := nat_of_ascii c in
  if ((65 <=? n) && (n <=? 90) ||
      (192 <=? n) && (n <=? 222) && negb (n =? 215))%nat
  then ascii_of_nat (n + 32) else c.

Fixpoint lower (s : string) : string :=
  match s with
  | EmptyString => EmptyString
  | String c s' => String (lower_char c) (lower s')
  end.

(** [sep.join(ls)] is [String.concat sep ls]. *)
Definition newline : string := String (ascii_of_nat 10) EmptyString.

(** *** Insertion-ordered dictionaries *)

Section Dict.
Context {V : Type}.

Definition dict : Type := list (string * V).

Fixpoint dict_get (d : dict) (k : string) : option V :=
  match d with
  | [] => None
  | (k', v) :: d' => if String.eqb k' k then Some v else dict_get d' k
  end.

(** [d[k] = v]: in place when [k] is a key of [d], at the end otherwise. *)
Fixpoint dict_set (d : dict) (k : string) (v : V) : dict :=
  match d with
  | [] => [(k, v)]
  | (k', v') :: d' =>
      if String.eqb k' k then (k', v) :: d' else (k', v') :: dict_set d' k v
  end.

Definition dict_mem (d : dict) (k : string) : bool :=
  match dict_get d k with Some _ => true | None => false end.

Definition keys (d : dict) : list string := map fst d.
Definition values (d : dict) : list V := map snd d.
End Dict.
Arguments dict V : clear implicits.

(** ** class Node *)

Module Node.

(** [width] and [height] are attributes that [__init__] sets only for
    the two known shapes. *)
Record t : Type := mk {
  id : string;
  x : Z;
  y : Z;
  text : string;
  shape : string;
  fill : string;
  width : option Z;
  height : option Z
}.

Definition init (node_id : string) (x0 y0 : Z) (text0 shape0 fill0 : string) : t :=
  if String.eqb shape0 "rectangle" then
    mk node_id x0 y0 text0 shape0 fill0 (Some 100) (Some 50)
  else if String.eqb shape0 "diamond" then
    mk node_id x0 y0 text0 shape0 fill0 (Some 100) (Some 60)
  else
    mk node_id x0 y0 text0 shape0 fill0 None None.

Definition update_position (self : t) (new_x new_y : Z) : t :=
  mk (id self) new_x new_y (text self) (shape self) (fill self)
     (width self) (height self).

Definition update_text (self : t) (new_text : string) : t :=
  mk (id self) (x self) (y self) new_text (shape self) (fill self)
     (width self) (height self).

Definition update_color (self : t) (new_color : string) : t :=
  mk (id self) (x self) (y self) (text self) (shape self) new_color
     (width self) (height self).

(** [self.x <= px <= self.x + self.width and
     self.y <= py <= self.y + self.height], evaluated left to right:
    an attribute is read only when the comparisons before it hold. *)
Definition contains_point (self : t) (px py : Z) : outcome bool :=
  if negb (x self <=? px) then Return false else
  let? w := getattr "width" (width self) in
  if negb (px <=? x self + w) then Return false else
  if negb (y self <=? py) then Return false else
  let? h := getattr "height" (height self) in
  Return (py <=? y self + h).

Definition get_center (self : t) : outcome (Q * Q) :=
  let? w := getattr "width" (width self) in
  let? h := getattr "height" (height self) in
  Return ((inject_Z (x self) + inject_Z w / 2)%Q,
          (inject_Z (y self) + inject_Z h / 2)%Q).

End Node.

(** ** class Edge *)

Module Edge.

(** [source] and [target] are the ids of the two nodes.  [line_item]
    stands for the coordinates of the canvas line, [label_item] for the
    position of the label text when there is one. *)
Record t : Type := mk {
  source : string;
  target : string;
  label : string;
  line_item : Q * Q * Q * Q;
  label_item : option (Q * Q)
}.

(** The coordinates both [draw] and [update_position] compute. *)
Definition endpoints (src tgt : Node.t) : outcome (Q * Q * Q * Q) :=
  let? (sx, sy) := Node.get_center src in
  let? (tx, ty) := Node.get_center tgt in
  Return (sx, sy, tx, ty).

Definition midpoint (c : Q * Q * Q * Q) : Q * Q :=
  let '(sx, sy, tx, ty) := c in (((sx + tx) / 2)%Q, ((sy + ty) / 2)%Q).

(** [__init__], with [draw] inlined. *)
Definition init (src tgt : Node.t) (label0 : string) : outcome t :=
  let? c := endpoints src tgt in
  Return (mk (Node.id src) (Node.id tgt) label0 c
             (if String.eqb label0 "" then None else Some (midpoint c))).

Definition update_position (nodes : dict Node.t) (self : t) : outcome t :=
  let? src := match dict_get nodes (source self) with
              | Some n => Return n
              | None => Raise (Dangling (source self))
              end in
  let? tgt := match dict_get nodes (target self) with
              | Some n => Return n
              | None => Raise (Dangling (target self))
              end in
  let? c := endpoints src tgt in
  Return (mk (source self) (target self) (label self) c
             (match label_item self with
              | Some _ => Some (midpoint c)
              | None => None
              end)).

End Edge.

(** ** class DiagramEditor *)

Module DiagramEditor.

(** The [tk.Entry] of the in-place editor: the text it holds, and the
    node its [<KeyRelease>] handler was bound for. *)
Record Entry : Type := mkEntry {
  entry_text : string;
  entry_node : string
}.

(** The attributes of the editor that the handlers read or write.
    [editor_window_id] stands for the position of the editor window on
    the canvas; [palette_panel] tells whether the palette is shown;
    [context_menu_x] and [context_menu_y] exist only after a right
    click. *)
Record t : Type := mk {
  nodes : dict Node.t;
  edges : list Edge.t;
  node_counter : nat;
  arrow_source : option string;
  dragging_node : option string;
  drag_offset_x : Z;
  drag_offset_y : Z;
  drag_threshold : Z;
  current_edit_node : option string;
  text_editor : option Entry;
  editor_window_id : option (Q * Q);
  palette_panel : bool;
  context_menu_x : option Z;
  context_menu_y : option Z
}.

(** [__init__]. *)
Definition init : t :=
  mk [] [] 0 None None 0 0 5 None None None false None None.

Definition set_nodes (v : dict Node.t) (s : t) : t :=
  mk v (edges s) (node_counter s) (arrow_source s) (dragging_node s)
     (drag_offset_x s) (drag_offset_y s) (drag_threshold s)
     (current_edit_node s) (text_editor s) (editor_window_id s)
     (palette_panel s) (context_menu_x s) (context_menu_y s).

Definition set_edges (v : list Edge.t) (s : t) : t :=
  mk (nodes s) v (node_counter s) (arrow_source s) (dragging_node s)
     (drag_offset_x s) (drag_offset_y s) (drag_threshold s)
     (current_edit_node s) (text_editor s) (editor_window_id s)
     (palette_panel s) (context_menu_x s) (context_menu_y s).

Definition set_node_counter (v : nat) (s : t) : t :=
  mk (nodes s) (edges s) v (arrow_source s) (dragging_node s)
     (drag_offset_x s) (drag_offset_y s) (drag_threshold s)
     (current_edit_node s) (text_editor s) (editor_window_id s)
     (palette_panel s) (context_menu_x s) (context_menu_y s).

Definition set_arrow_source (v : option string) (s : t) : t :=
  mk (nodes s) (edges s) (node_counter s) v (dragging_node s)
     (drag_offset_x s) (drag_offset_y s) (drag_threshold s)
     (current_edit_node s) (text_editor s) (editor_window_id s)
     (palette_panel s) (context_menu_x s) (context_menu_y s).

Definition set_dragging (v : option string) (ox oy : Z) (s : t) : t :=
  mk (nodes s) (edges s) (node_counter s) (arrow_source s) v
     ox oy (drag_threshold s)
     (current_edit_node s) (text_editor s) (editor_window_id s)
     (palette_panel s) (context_menu_x s) (context_menu_y s).

Definition set_current_edit_node (v : option string) (s : t) : t :=
  mk (nodes s) (edges s) (node_counter s) (arrow_source s) (dragging_node s)
     (drag_offset_x s) (drag_offset_y s) (drag_threshold s)
     v (text_editor s) (editor_window_id s)
     (palette_panel s) (context_menu_x s) (context_menu_y s).

Definition set_text_editor (v : option Entry) (s : t) : t :=
  mk (nodes s) (edges s) (node_counter s) (arrow_source s) (dragging_node s)
     (drag_offset_x s) (drag_offset_y s) (drag_threshold s)
     (current_edit_node s) v (editor_window_id s)
     (palette_panel s) (context_menu_x s) (context_menu_y s).

Definition set_editor_window_id (v : option (Q * Q)) (s : t) : t :=
  mk (nodes s) (edges s) (node_counter s) (arrow_source s) (dragging_node s)
     (drag_offset_x s) (drag_offset_y s) (drag_threshold s)
     (current_edit_node s) (text_editor s) v
     (palette_panel s) (context_menu_x s) (context_menu_y s).

Definition set_palette_panel (v : bool) (s : t) : t :=
  mk (nodes s) (edges s) (node_counter s) (arrow_source s) (dragging_node s)
     (drag_offset_x s) (drag_offset_y s) (drag_threshold s)
     (current_edit_node s) (text_editor s) (editor_window_id s)
     v (context_menu_x s) (context_menu_y s).

Definition set_context_menu (vx vy : option Z) (s : t) : t :=
  mk (nodes s) (edges s) (node_counter s) (arrow_source s) (dragging_node s)
     (drag_offset_x s) (drag_offset_y s) (drag_threshold s)
     (current_edit_node s) (text_editor s) (editor_window_id s)
     (palette_panel s) vx vy.

(** *** Methods: state and exceptions

    A method is a function of the editor that returns a value or raises,
    together with the editor as the method left it: what a handler
    wrote before it raised stays written. *)
Definition M (A : Type) : Type := t -> outcome A * t.

Definition ret {A : Type} (a : A) : M A := fun s => (Return a, s).

Definition bind {A B : Type} (c : M A) (k : A -> M B) : M B :=
  fun s => match c s with
           | (Return a, s') => k a s'
           | (Raise e, s') => (Raise e, s')
           end.

Definition lift {A : Type} (o : outcome A) : M A := fun s => (o, s).
Definition get : M t := fun s => (Return s, s).
Definition modify (f : t -> t) : M unit := fun s => (Return tt, f s).

Declare Scope method_scope.
Delimit Scope method_scope with method.
Notation "x <- c ;; k" := (bind c (fun x => k))
  (at level 61, c at next level, right associativity) : method_scope.
Notation "c ;; k" := (bind c (fun _ => k))
  (at level 61, right associativity) : method_scope.
Local Open Scope method_scope.

(** The node a reference designates. *)
Definition deref (r : string) : M Node.t :=
  self <- get ;;
  match dict_get (nodes self) r with
  | Some n => ret n
  | None => lift (Raise (Dangling r))
  end.

(** A method call [r.f(...)] that mutates the node [r]. *)
Definition update_node (r : string) (f : Node.t -> Node.t) : M unit :=
  n <- deref r ;;
  modify (fun s => set_nodes (dict_set (nodes s) r (f n)) s).

Definition get_new_node_id : M string :=
  self <- get ;;
  let node_id :=
    if (node_counter self <? 26)%nat then chr (65 + node_counter self)
    else "N" ++ str (node_counter self) in
  modify (set_node_counter (node_counter self + 1)) ;;
  ret node_id.

Definition on_right_click (x y : Z) : M unit :=
  modify (set_context_menu (Some x) (Some y)).

Definition remove_text_editor : M unit :=
  self <- get ;;
  match text_editor self with
  | Some _ =>
      modify (set_text_editor None) ;;
      modify (set_editor_window_id None)
  | None => ret tt
  end.

Definition show_palette_panel : M unit := modify (set_palette_panel true).
Definition hide_palette_panel : M unit := modify (set_palette_panel false).

Definition stop_editing : M unit :=
  remove_text_editor ;;
  hide_palette_panel ;;
  modify (set_current_edit_node None).

Definition start_editing_node (node : string) : M unit :=
  self <- get ;;
  match current_edit_node self with
  | Some c => if negb (String.eqb c node) then stop_editing else ret tt
  | None => ret tt
  end ;;
  modify (set_current_edit_node (Some node)) ;;
  self <- get ;;
  match text_editor self with
  | Some _ => ret tt
  | None =>
      n <- deref node ;;
      modify (set_text_editor (Some (mkEntry (Node.text n) node))) ;;
      c <- lift (Node.get_center n) ;;
      modify (set_editor_window_id (Some c)) ;;
      show_palette_panel ;;
      self <- get ;;
      match arrow_source self with
      | Some _ => modify (set_arrow_source None)
      | None => ret tt
      end
  end.

Definition create_node_at (shape : string) : M unit :=
  self <- get ;;
  x <- lift (getattr "context_menu_x" (context_menu_x self)) ;;
  y <- lift (getattr "context_menu_y" (context_menu_y self)) ;;
  node_id <- get_new_node_id ;;
  let new_node := Node.init node_id x y "Node" shape "#FFFFFF" in
  modify (fun s => set_nodes (dict_set (nodes s) node_id new_node) s) ;;
  start_editing_node node_id.

Definition finish_editing : M unit :=
  self <- get ;;
  match current_edit_node self, text_editor self with
  | Some c, Some ed =>
      update_node c (fun n => Node.update_text n (entry_text ed))
  | _, _ => ret tt
  end ;;
  remove_text_editor ;;
  hide_palette_panel ;;
  modify (set_current_edit_node None).

(** The [<KeyRelease>] handler bound in [start_editing_node]: the entry
    now holds [typed]. *)
Definition on_key_release (typed : string) : M unit :=
  self <- get ;;
  match text_editor self with
  | Some ed =>
      modify (set_text_editor (Some (mkEntry typed (entry_node ed)))) ;;
      update_node (entry_node ed) (fun n => Node.update_text n typed)
  | None => ret tt
  end.

Definition change_color (new_color : string) : M unit :=
  self <- get ;;
  match current_edit_node self with
  | Some c => update_node c (fun n => Node.update_color n new_color)
  | None => ret tt
  end.

Fixpoint get_node_at (ns : list Node.t) (x y : Z) : outcome (option Node.t) :=
  match ns with
  | [] => Return None
  | node :: ns' =>
      let? hit := Node.contains_point node x y in
      if hit then Return (Some node) else get_node_at ns' x y
  end.

(** The loop of [on_drag] over [self.edges]: every edge that touches
    [d] is redrawn; a raise leaves the later edges as they were. *)
Fixpoint redraw_edges (ns : dict Node.t) (d : string) (es : list Edge.t)
  : outcome unit * list Edge.t :=
  match es with
  | [] => (Return tt, [])
  | edge :: es' =>
      if String.eqb (Edge.source edge) d || String.eqb (Edge.target edge) d then
        match Edge.update_position ns edge with
        | Return edge' =>
            let (r, es'') := redraw_edges ns d es' in (r, edge' :: es'')
        | Raise e => (Raise e, edge :: es')
        end
      else
        let (r, es'') := redraw_edges ns d es' in (r, edge :: es'')
  end.

Definition on_left_click (x y : Z) : M unit :=
  self <- get ;;
  match arrow_source self with
  | Some src =>
      node <- lift (get_node_at (values (nodes self)) x y) ;;
      match node with
      | Some n =>
          if negb (String.eqb (Node.id n) src) then
            s <- deref src ;;
            new_edge <- lift (Edge.init s n "") ;;
            modify (fun s => set_edges (edges s ++ [new_edge])%list s) ;;
            modify (set_arrow_source None)
          else ret tt
      | None => ret tt
      end
  | None =>
      node <- lift (get_node_at (values (nodes self)) x y) ;;
      match node with
      | Some n =>
          start_editing_node (Node.id n) ;;
          modify (set_dragging (Some (Node.id n))
                    (x - Node.x n) (y - Node.y n))
      | None => stop_editing
      end
  end.

Definition on_double_click (x y : Z) : M unit :=
  self <- get ;;
  node <- lift (get_node_at (values (nodes self)) x y) ;;
  match node with
  | Some n =>
      stop_editing ;;
      modify (set_arrow_source (Some (Node.id n)))
  | None => ret tt
  end.

Definition on_drag (x y : Z) : M unit :=
  self <- get ;;
  match dragging_node self with
  | Some d =>
      let new_x := x - drag_offset_x self in
      let new_y := y - drag_offset_y self in
      update_node d (fun n => Node.update_position n new_x new_y) ;;
      self <- get ;;
      match current_edit_node self, text_editor self with
      | Some c, Some _ =>
          if String.eqb c d then
            n <- deref d ;;
            c <- lift (Node.get_center n) ;;
            modify (set_editor_window_id (Some c))
          else ret tt
      | _, _ => ret tt
      end ;;
      fun s =>
        let (r, es) := redraw_edges (nodes s) d (edges s) in
        (r, set_edges es s)
  | None => ret tt
  end.

Definition on_release : M unit :=
  modify (fun s => set_dragging None (drag_offset_x s) (drag_offset_y s) s).

(** *** The serializer *)

Definition predefined : dict (string * string) :=
  [ ("#1e90ff", ("blue", "#1E90FF"));
    ("#ff4500", ("red", "#FF4500"));
    ("#32cd32", ("green", "#32CD32"));
    ("#ffff00", ("yellow", "#FFFF00"));
    ("#ffa500", ("orange", "#FFA500")) ].

Definition node_line (node : Node.t) : string :=
  if String.eqb (Node.shape node) "rectangle" then
    "    " ++ Node.id node ++ "[" ++ Node.text node ++ "];"
  else if String.eqb (Node.shape node) "diamond" then
    "    " ++ Node.id node ++ "{" ++ Node.text node ++ "};"
  else
    "    " ++ Node.id node ++ "[" ++ Node.text node ++ "];".

Definition edge_line (edge : Edge.t) : string :=
  if negb (String.eqb (Edge.label edge) "") then
    "    " ++ Edge.source edge ++ " -- " ++ Edge.label edge ++ " --> "
           ++ Edge.target edge ++ ";"
  else
    "    " ++ Edge.source edge ++ " --> " ++ Edge.target edge ++ ";".

(** The body of the first loop over the colours. *)
Definition assign_class (color_classes : dict string) (node : Node.t)
  : dict string :=
  let color := lower (Node.fill node) in
  let class_name :=
    match dict_get predefined color with
    | Some p => fst p
    | None =>
        match dict_get color_classes color with
        | None => "color" ++ str (List.length color_classes + 1)
        | Some c => c
        end
    end in
  dict_set color_classes color class_name.

Definition classdef_line (item : string * string) : string :=
  let (color, class_name) := item in
  "    classDef " ++ class_name ++ " fill:" ++ color
                  ++ ",stroke:#000,stroke-width:2px;".

(** The body of the loop that fills [groups]:
    [groups.setdefault(class_name, []).append(node.id)]. *)
Definition add_to_group (color_classes : dict string)
    (groups : dict (list string)) (node : Node.t)
  : outcome (dict (list string)) :=
  let color := lower (Node.fill node) in
  match dict_get color_classes color with
  | None => Raise (KeyError color)
  | Some class_name =>
      match dict_get groups class_name with
      | Some node_ids =>
          Return (dict_set groups class_name (node_ids ++ [Node.id node])%list)
      | None => Return (dict_set groups class_name [Node.id node])
      end
  end.

Definition class_line (item : string * list string) : string :=
  let (class_name, node_ids) := item in
  "    class " ++ String.concat "," node_ids ++ " " ++ class_name ++ ";".

(** A [for] loop whose body may raise. *)
Fixpoint for_each {A B : Type} (body : B -> A -> outcome B) (l : list A)
    (acc : B) : outcome B :=
  match l with
  | [] => Return acc
  | a :: l' => let? acc' := body acc a in for_each body l' acc'
  end.

(** The list [lines] at the end of [get_mermaid_code]. *)
Definition mermaid_lines (self : t) : outcome (list string) :=
  let lines := ["```mermaid"; "graph TD;"] in
  let lines :=
    fold_left (fun lines node => lines ++ [node_line node])%list
              (values (nodes self)) lines in
  let lines :=
    fold_left (fun lines edge => lines ++ [edge_line edge])%list
              (edges self) lines in
  let color_classes := fold_left assign_class (values (nodes self)) [] in
  let lines :=
    fold_left (fun lines item => lines ++ [classdef_line item])%list
              color_classes lines in
  let? groups :=
    for_each (add_to_group color_classes) (values (nodes self)) [] in
  let lines :=
    fold_left (fun lines item => lines ++ [class_line item])%list
              groups lines in
  Return (lines ++ ["```"])%list.

Definition get_mermaid_code : M string :=
  self <- get ;;
  lines <- lift (mermaid_lines self) ;;
  ret (String.concat newline lines).

(** *** Events

    The callbacks tk runs: the canvas bindings, the two commands of the
    context menu (any other caller of [create_node_at] may pass any
    string), the bindings of the entry, the palette buttons and the two
    code buttons. *)
Inductive event : Type :=
| RightClick (x y : Z)
| CreateNodeAt (shape : string)
| LeftClick (x y : Z)
| DoubleClick (x y : Z)
| Motion (x y : Z)
| ButtonRelease
| KeyRelease (typed : string)
| ReturnOrFocusOut
| PaletteButton (color : string)
| CodeButton.

Definition handler (ev : event) : M unit :=
  match ev with
  | RightClick x y => on_right_click x y
  | CreateNodeAt shape => create_node_at shape
  | LeftClick x y => on_left_click x y
  | DoubleClick x y => on_double_click x y
  | Motion x y => on_drag x y
  | ButtonRelease => on_release
  | KeyRelease typed => on_key_release typed
  | ReturnOrFocusOut => finish_editing
  | PaletteButton color => change_color color
  | CodeButton => get_mermaid_code ;; ret tt
  end.

(** tk reports an exception raised by a callback and goes on with the
    editor as the callback left it. *)
Definition step (s : t) (ev : event) : t := snd (handler ev s).

Definition run (evs : list event) : t := fold_left step evs init.

End DiagramEditor.

Import DiagramEditor.
Local Open Scope method_scope.

(** ** Specification-side definitions *)

(** The id the generator issues when [node_counter] is [c]. *)
Definition id_at (c : nat) : string :=
  if (c <? 26)%nat then chr (65 + c) else "N" ++ str c.

(** The id of the [k]-th node created, [k] counted from 1: a letter up
    to the 26th, then [N] and the count of the nodes created before. *)
Definition id_of_creation (k : nat) : string :=
  if (k <=? 26)%nat then
    match nth_error (list_ascii_of_string "ABCDEFGHIJKLMNOPQRSTUVWXYZ") (k - 1) with
    | Some c => String c EmptyString
    | None => EmptyString
    end
  else "N" ++ str (k - 1).

(** The [k]-th capital letter, [k] counted from 1. *)
Definition letter (k : nat) : string :=
  match nth_error (list_ascii_of_string "ABCDEFGHIJKLMNOPQRSTUVWXYZ") (k - 1) with
  | Some c => String c EmptyString
  | None => EmptyString
  end.

(** The colour under which a node is classified. *)
Definition color_key (node : Node.t) : string := lower (Node.fill node).

(** The table of colour classes the serializer builds. *)
Definition color_table (ns : list Node.t) : dict string :=
  fold_left assign_class ns [].

(** The class name of the colour at position [i] of the table. *)
Definition class_at (i : nat) (color : string) : string :=
  match dict_get predefined color with
  | Some p => fst p
  | None => "color" ++ str (i + 1)
  end.

Definition named_by_position (cc : dict string) : Prop :=
  forall i color name,
    nth_error cc i = Some (color, name) -> name = class_at i color.

(** The elements of [l] that are not in [seen], each once, in the order of
    their first occurrence. *)
Fixpoint first_seen (seen l : list string) : list string :=
  match l with
  | [] => []
  | c :: l' =>
      if existsb (String.eqb c) seen then first_seen seen l'
      else c :: first_seen (seen ++ [c])%list l'
  end.

(** A point is in the bounding box of a node. *)
Definition in_bbox (node : Node.t) (x y : Z) : Prop :=
  exists w h,
    Node.width node = Some w /\ Node.height node = Some h /\
    Node.x node <= x <= Node.x node + w /\
    Node.y node <= y <= Node.y node + h.

(** The node has the dimensions of one of the two shapes. *)
Definition sized (node : Node.t) : Prop :=
  exists w h, Node.width node = Some w /\ Node.height node = Some h.

Definition valid_ref (ns : dict Node.t) (r : string) : Prop :=
  exists n, dict_get ns r = Some n.

Definition sized_ref (ns : dict Node.t) (r : string) : Prop :=
  exists n, dict_get ns r = Some n /\ sized n.

(** The node store: the keys are the ids issued so far, in order, and
    every node is stored under its own id. *)
Definition store_ok (ns : dict Node.t) (counter : nat) : Prop :=
  keys ns = map id_at (seq 0 counter) /\
  Forall (fun kn => Node.id (snd kn) = fst kn) ns.

(** Every reference the editor holds designates a node of the store; the
    ends of an edge, the dragged node and the source of a pending
    connection have their dimensions. *)
Record refs_ok (s : t) : Prop := {
  edges_ok :
    Forall (fun e => sized_ref (nodes s) (Edge.source e) /\
                     sized_ref (nodes s) (Edge.target e)) (edges s);
  dragging_ok : forall d, dragging_node s = Some d -> sized_ref (nodes s) d;
  arrow_ok : forall a, arrow_source s = Some a -> sized_ref (nodes s) a;
  current_ok : forall c, current_edit_node s = Some c -> valid_ref (nodes s) c;
  entry_ok :
    forall ed, text_editor s = Some ed -> valid_ref (nodes s) (entry_node ed)
}.

Definition Inv (s : t) : Prop :=
  store_ok (nodes s) (node_counter s) /\ refs_ok s.

Definition reachable (s : t) : Prop := exists evs, s = run evs.

(** An edge is drawn between the centres of its two nodes. *)
Definition drawn_between_centers (ns : dict Node.t) (e : Edge.t) : Prop :=
  exists src tgt sx sy tx ty,
    dict_get ns (Edge.source e) = Some src /\
    dict_get ns (Edge.target e) = Some tgt /\
    Node.get_center src = Return (sx, sy) /\
    Node.get_center tgt = Return (tx, ty) /\
    Edge.line_item e = (sx, sy, tx, ty).

(** How [redraw_edges] relates an edge to what it becomes when [d] is
    the moved node. *)
Definition redrawn (ns : dict Node.t) (d : string) (e e' : Edge.t) : Prop :=
  Edge.source e' = Edge.source e /\ Edge.target e' = Edge.target e /\
  Edge.label e' = Edge.label e /\
  ((Edge.source e = d \/ Edge.target e = d) -> drawn_between_centers ns e') /\
  (Edge.source e <> d -> Edge.target e <> d -> e' = e).

(** *** Sample diagrams *)

Definition rect (node_id : string) (x y : Z) (fill : string) : Node.t :=
  Node.update_color (Node.init node_id x y "Node" "rectangle" "#FFFFFF") fill.

(** A model with the nodes [ns], each stored under its id. *)
Definition model (ns : list Node.t) : t :=
  set_nodes (map (fun n => (Node.id n, n)) ns) init.

(** Two nodes filled [#1E90FF], then one filled [#123456]. *)
Definition blue_blue_other : t :=
  model [rect "A" 0 0 "#1E90FF"; rect "B" 150 0 "#1E90FF";
         rect "C" 300 0 "#123456"].

(** One rectangle, double-clicked: a connection from [A] is pending. *)
Definition connecting_from_A : t :=
  run [RightClick 10 10; CreateNodeAt "rectangle"; DoubleClick 20 20].

(** Two nodes and an edge between them; [A] is being dragged. *)
Definition dragging_A : t :=
  run [RightClick 10 10; CreateNodeAt "rectangle";
       RightClick 200 10; CreateNodeAt "diamond";
       DoubleClick 20 20; LeftClick 210 20; LeftClick 20 20].

(** Twenty-eight creations. *)
Definition creations_28 : list event :=
  List.concat (repeat [RightClick 10 10; CreateNodeAt "rectangle"] 28).

(** *** What the events may change *)

(** The attributes of a node that no method writes after [__init__]. *)
Definition same_identity (n n' : Node.t) : Prop :=
  Node.id n' = Node.id n /\ Node.shape n' = Node.shape n /\
  Node.width n' = Node.width n /\ Node.height n' = Node.height n.

(** An edge as [on_left_click] makes it: between two nodes, no label. *)
Definition plain_edge (e : Edge.t) : Prop :=
  Edge.source e <> Edge.target e /\ Edge.label e = "" /\
  Edge.label_item e = None.

(** The entry, when there is one, was opened for the current node. *)
Definition editor_bound (s : t) : Prop :=
  forall ed, text_editor s = Some ed ->
             current_edit_node s = Some (entry_node ed).

(** The five ways in which a callback changes the nodes and the edges,
    and the events that do so. *)
Inductive change (ev : event) (s s' : t) : Prop :=
| Unchanged :
    nodes s' = nodes s -> edges s' = edges s ->
    node_counter s' = node_counter s -> change ev s s'
| Restyled (r : string) (n n' : Node.t) :
    dict_get (nodes s) r = Some n ->
    (exists typed, ev = KeyRelease typed /\ n' = Node.update_text n typed) \/
    (exists ed, ev = ReturnOrFocusOut /\ text_editor s = Some ed /\
                n' = Node.update_text n (entry_text ed)) \/
    (exists c, ev = PaletteButton c /\ n' = Node.update_color n c) ->
    nodes s' = dict_set (nodes s) r n' -> edges s' = edges s ->
    node_counter s' = node_counter s -> change ev s s'
| Created (shape : string) (x y : Z) :
    ev = CreateNodeAt shape ->
    context_menu_x s = Some x -> context_menu_y s = Some y ->
    nodes s' =
      (nodes s ++
       [(id_at (node_counter s),
         Node.init (id_at (node_counter s)) x y "Node" shape "#FFFFFF")])%list ->
    edges s' = edges s ->
    node_counter s' = (node_counter s + 1)%nat -> change ev s s'
| Connected (sn tn : Node.t) (e : Edge.t) (px py : Z) :
    ev = LeftClick px py ->
    arrow_source s = Some (Node.id sn) ->
    dict_get (nodes s) (Node.id sn) = Some sn ->
    dict_get (nodes s) (Node.id tn) = Some tn ->
    Node.id tn <> Node.id sn ->
    Edge.init sn tn "" = Return e ->
    nodes s' = nodes s -> edges s' = (edges s ++ [e])%list ->
    node_counter s' = node_counter s -> change ev s s'
| Moved (d : string) (n : Node.t) (px py : Z) :
    ev = Motion px py ->
    dragging_node s = Some d -> dict_get (nodes s) d = Some n ->
    nodes s' =
      dict_set (nodes s) d
        (Node.update_position n (px - drag_offset_x s) (py - drag_offset_y s)) ->
    Forall2 (redrawn (nodes s') d) (edges s) (edges s') ->
    Forall2 (fun e e' => Edge.label_item e = None -> Edge.label_item e' = None)
            (edges s) (edges s') ->
    node_counter s' = node_counter s -> change ev s s'.

(** The editor after [start_editing_node] opened an entry for the node
    [n] stored under [node], whose centre is [c]. *)
Definition editing (s : t) (node : string) (n : Node.t) (c : Q * Q) : t :=
  DiagramEditor.mk (nodes s) (edges s) (node_counter s) None (dragging_node s)
    (drag_offset_x s) (drag_offset_y s) (drag_threshold s)
    (Some node) (Some (mkEntry (Node.text n) node)) (Some c) true
    (context_menu_x s) (context_menu_y s).

(** The traces the window can produce: the context menu is posted by a
    right click, and its two commands create a rectangle or a diamond. *)
Fixpoint ui_trace (placed : bool) (evs : list event) : bool :=
  match evs with
  | [] => true
  | RightClick _ _ :: evs' => ui_trace true evs'
  | CreateNodeAt shape :: evs' =>
      placed && (String.eqb shape "rectangle" || String.eqb shape "diamond")
      && ui_trace placed evs'
  | _ :: evs' => ui_trace placed evs'
  end.

(** No callback of the trace raises. *)
Fixpoint runs_clean (s : t) (evs : list event) : Prop :=
  match evs with
  | [] => True
  | ev :: evs' => fst (handler ev s) = Return tt /\ runs_clean (step s ev) evs'
  end.

(** The ids of the nodes of one colour, in the order of the store. *)
Definition ids_of_color (ns : list Node.t) (color : string) : list string :=
  map Node.id (filter (fun n => String.eqb (color_key n) color) ns).

(** The groups of the [class] lines: one per colour of the table. *)
Definition groups_of (ns : list Node.t) : dict (list string) :=
  map (fun item => (snd item, ids_of_color ns (fst item))) (color_table ns).

(** Nothing is removed: the nodes of [s] are nodes of [s'], in the same
    order and with the same identity, and so are the edges. *)
Definition grows (s s' : t) : Prop :=
  (exists extra, keys (nodes s') = (keys (nodes s) ++ extra)%list) /\
  (forall k n, dict_get (nodes s) k = Some n ->
     exists n', dict_get (nodes s') k = Some n' /\ same_identity n n') /\
  (exists es extra,
     edges s' = (es ++ extra)%list /\
     Forall2 (fun e e' => Edge.source e' = Edge.source e /\
                          Edge.target e' = Edge.target e /\
                          Edge.label e' = Edge.label e)
             (edges s) es).

(** The class name the table gives to the colour of a node. *)
Definition class_of (cc : dict string) (node : Node.t) : string :=
  match dict_get cc (color_key node) with
  | Some c => c
  | None => ""
  end.

(** The ids of the nodes of one class, in the order of the store. *)
Definition ids_of_class (cc : dict string) (ns : list Node.t) (name : string)
  : list string :=
  map Node.id (filter (fun n => String.eqb (class_of cc n) name) ns).

(** What the serializer reads of a node and of an edge. *)
Definition node_view (n : Node.t) : string * string * string * string :=
  (Node.id n, Node.text n, Node.shape n, Node.fill n).

Definition edge_view (e : Edge.t) : string * string * string :=
  (Edge.source e, Edge.target e, Edge.label e).

(** *** Tactics for running a method *)

Ltac rew_ctx :=
  repeat match goal with
         | H : ?l = _ |- context [?l] => rewrite H
         end.

Ltac run_method :=
  repeat (progress (unfold bind, get, modify, lift, ret; simpl; rew_ctx)).

Ltac split_inv H :=
  let Hstore := fresh "Hstore" in
  let Hedges := fresh "Hedges" in
  let Hdrag := fresh "Hdrag" in
  let Harrow := fresh "Harrow" in
  let Hcur := fresh "Hcur" in
  let Hentry := fresh "Hentry" in
  destruct H as [Hstore [Hedges Hdrag Harrow Hcur Hentry]].

Ltac close_inv :=
  split;
  [simpl; auto
  |constructor; simpl; auto; try discriminate; try (intros; congruence)].

(** ** Dictionaries *)

Section DictFacts.
Context {V : Type}.
Implicit Types (d : dict V) (k : string) (v : V).

Lemma dict_get_set_same d k v : dict_get (dict_set d k v) k = Some v.
Proof.
  induction d as [|[k' v'] d IH]; simpl.
  - now rewrite String.eqb_refl.
  - destruct (String.eqb k' k) eqn:E; simpl; now rewrite E.
Qed.

Lemma dict_get_set_other d k k' v :
  k' <> k -> dict_get (dict_set d k v) k' = dict_get d k'.
Proof.
  intros Hne. induction d as [|[k0 v0] d IH]; simpl.
  - destruct (String.eqb_spec k k'); congruence.
  - destruct (String.eqb_spec k0 k) as [->|Hk]; simpl.
    + destruct (String.eqb_spec k k'); congruence.
    + now rewrite IH.
Qed.

Lemma dict_set_fresh d k v :
  dict_get d k = None -> dict_set d k v = (d ++ [(k, v)])%list.
Proof.
  induction d as [|[k' v'] d IH]; simpl; [reflexivity|].
  destruct (String.eqb k' k); [discriminate|].
  intros H. now rewrite IH.
Qed.

Lemma dict_set_unchanged d k v :
  dict_get d k = Some v -> dict_set d k v = d.
Proof.
  induction d as [|[k' v'] d IH]; simpl; [discriminate|].
  destruct (String.eqb k' k).
  - now intros [= ->].
  - intros H. now rewrite IH.
Qed.

Lemma keys_set_present d k v v' :
  dict_get d k = Some v' -> keys (dict_set d k v) = keys d.
Proof.
  unfold keys. induction d as [|[k0 v0] d IH]; simpl; [discriminate|].
  destruct (String.eqb k0 k); simpl; [reflexivity|].
  intros H. now rewrite IH.
Qed.

Lemma dict_get_none_keys d k : dict_get d k = None <-> ~ In k (keys d).
Proof.
  unfold keys. induction d as [|[k0 v0] d IH]; simpl; [tauto|].
  destruct (String.eqb_spec k0 k) as [->|Hk].
  - split; [discriminate | tauto].
  - rewrite IH. tauto.
Qed.

Lemma dict_mem_existsb d k :
  existsb (String.eqb k) (keys d) = dict_mem d k.
Proof.
  unfold dict_mem, keys. induction d as [|[k0 v0] d IH]; simpl; [reflexivity|].
  rewrite (String.eqb_sym k k0).
  destruct (String.eqb k0 k); simpl; [reflexivity | exact IH].
Qed.

(** With distinct keys, a binding of the list is what a lookup finds. *)
Lemma dict_get_in d k v :
  NoDup (keys d) -> In (k, v) d -> dict_get d k = Some v.
Proof.
  unfold keys. induction d as [|[k0 v0] d IH]; simpl; [tauto|].
  intros Hnd [[= -> ->]|Hin].
  - now rewrite String.eqb_refl.
  - inversion Hnd as [|? ? Hnotin Hnd']; subst.
    destruct (String.eqb_spec k0 k) as [->|Hk].
    + exfalso. apply Hnotin. now apply (in_map fst) in Hin.
    + now apply IH.
Qed.

Lemma dict_get_some_in d k v : dict_get d k = Some v -> In (k, v) d.
Proof.
  induction d as [|[k0 v0] d IH]; simpl; [discriminate|].
  destruct (String.eqb_spec k0 k) as [->|Hk].
  - intros [= ->]. now left.
  - intros H. right. now apply IH.
Qed.
End DictFacts.

Lemma fold_left_snoc {A B : Type} (f : A -> B) (l : list A) (acc : list B) :
  fold_left (fun lines a => lines ++ [f a])%list l acc = (acc ++ map f l)%list.
Proof.
  revert acc. induction l as [|a l IH]; intros acc; simpl.
  - now rewrite app_nil_r.
  - rewrite IH, <- app_assoc. reflexivity.
Qed.

(** ** The id generator *)

Lemma str_inj (a b : nat) : str a = str b -> a = b.
Proof.
  unfold str. intros H.
  apply (f_equal NilEmpty.uint_of_string) in H.
  rewrite !NilEmpty.usu in H. injection H as H.
  apply (f_equal Nat.of_uint) in H.
  now rewrite !DecimalNat.Unsigned.of_to in H.
Qed.

Lemma chr_inj (a b : nat) : (a < 256)%nat -> (b < 256)%nat -> chr a = chr b -> a = b.
Proof.
  unfold chr. intros Ha Hb [= H].
  apply (f_equal nat_of_ascii) in H.
  now rewrite !nat_ascii_embedding in H.
Qed.

Lemma str_not_empty (a : nat) : (0 < a)%nat -> str a <> "".
Proof.
  unfold str. intros Ha H.
  apply (f_equal NilEmpty.uint_of_string) in H.
  rewrite NilEmpty.usu in H. simpl in H. injection H as H.
  apply (f_equal Nat.of_uint) in H.
  rewrite DecimalNat.Unsigned.of_to in H. change (a = 0%nat) in H. lia.
Qed.

Lemma id_at_inj (a b : nat) : id_at a = id_at b -> a = b.
Proof.
  unfold id_at.
  destruct (Nat.ltb_spec a 26) as [Ha|Ha], (Nat.ltb_spec b 26) as [Hb|Hb];
    intros H.
  - apply chr_inj in H; lia.
  - unfold chr in H. injection H as _ H. symmetry in H.
    apply str_not_empty in H; [tauto | lia].
  - unfold chr in H. injection H as _ H.
    apply str_not_empty in H; [tauto | lia].
  - injection H as H. now apply str_inj.
Qed.

Lemma id_at_letter (k : nat) : (1 <= k <= 26)%nat -> id_at (k - 1) = letter k.
Proof.
  intros Hk.
  assert (H : forallb (fun k => String.eqb (id_at (k - 1)) (letter k)) (seq 1 26) = true)
    by reflexivity.
  rewrite forallb_forall in H.
  apply String.eqb_eq, H, in_seq. lia.
Qed.

Lemma NoDup_ids (start len : nat) : NoDup (map id_at (seq start len)).
Proof.
  apply NoDup_map_NoDup_ForallPairs; [|apply seq_NoDup].
  intros a b _ _. apply id_at_inj.
Qed.

Lemma get_new_node_id_eq (s : t) :
  get_new_node_id s =
  (Return (id_at (node_counter s)), set_node_counter (node_counter s + 1) s).
Proof. reflexivity. Qed.

(** ** The serializer *)

Lemma dict_set_keeps {V : Type} (d : dict V) (k k' : string) (v : V) :
  dict_get d k' <> None -> dict_get (dict_set d k v) k' <> None.
Proof.
  intros H. destruct (String.eqb_spec k' k) as [->|Hne].
  - now rewrite dict_get_set_same.
  - now rewrite dict_get_set_other.
Qed.

Lemma assign_class_keeps (cc : dict string) (n : Node.t) (k : string) :
  dict_get cc k <> None -> dict_get (assign_class cc n) k <> None.
Proof. apply dict_set_keeps. Qed.

Lemma fold_assign_keeps (ns : list Node.t) (cc : dict string) (k : string) :
  dict_get cc k <> None -> dict_get (fold_left assign_class ns cc) k <> None.
Proof.
  revert cc. induction ns as [|n ns IH]; intros cc H; simpl; [exact H|].
  now apply IH, assign_class_keeps.
Qed.

(** After the first loop every node's colour is a key of the table. *)
Lemma fold_assign_covers (ns : list Node.t) (cc : dict string) (n : Node.t) :
  In n ns -> dict_get (fold_left assign_class ns cc) (color_key n) <> None.
Proof.
  revert cc. induction ns as [|m ns IH]; intros cc; simpl; [tauto|].
  intros [->|Hin].
  - apply fold_assign_keeps. unfold assign_class.
    fold (color_key n). now rewrite dict_get_set_same.
  - now apply IH.
Qed.

(** So the second loop never raises [KeyError]. *)
Lemma groups_total (cc : dict string) (ns : list Node.t) (g : dict (list string)) :
  (forall n, In n ns -> dict_get cc (color_key n) <> None) ->
  exists g', for_each (add_to_group cc) ns g = Return g'.
Proof.
  revert g. induction ns as [|n ns IH]; intros g H; simpl.
  - now exists g.
  - unfold add_to_group at 1. fold (color_key n).
    destruct (dict_get cc (color_key n)) as [c|] eqn:E.
    + destruct (dict_get g c); simpl; apply IH; intros; apply H; now right.
    + exfalso. apply (H n); [now left | exact E].
Qed.

(** What the serializer builds: the header, a line per node, a line per
    edge, a [classDef] line per colour of the table, a [class] line per
    group, and the closing fence. *)
Lemma mermaid_lines_eq (s : t) :
  exists groups,
    for_each (add_to_group (color_table (values (nodes s))))
             (values (nodes s)) [] = Return groups /\
    mermaid_lines s =
    Return (["```mermaid"; "graph TD;"]
            ++ map node_line (values (nodes s))
            ++ map edge_line (edges s)
            ++ map classdef_line (color_table (values (nodes s)))
            ++ map class_line groups
            ++ ["```"])%list.
Proof.
  destruct (groups_total (color_table (values (nodes s))) (values (nodes s)) [])
    as [g Hg].
  { intros n Hn. now apply fold_assign_covers. }
  exists g. split; [exact Hg|].
  unfold mermaid_lines. fold (color_table (values (nodes s))).
  rewrite Hg. simpl obind. rewrite !fold_left_snoc.
  rewrite <- !app_assoc. reflexivity.
Qed.

Lemma get_mermaid_code_eq (s : t) (ls : list string) :
  mermaid_lines s = Return ls ->
  get_mermaid_code s = (Return (String.concat newline ls), s).
Proof.
  intros H. unfold get_mermaid_code, bind, get, lift, ret. now rewrite H.
Qed.

(** *** The table of colour classes *)

Lemma named_by_position_snoc (cc : dict string) (color : string) :
  named_by_position cc ->
  named_by_position (cc ++ [(color, class_at (List.length cc) color)])%list.
Proof.
  intros H i c nm Hi.
  destruct (Nat.lt_ge_cases i (List.length cc)) as [Hlt|Hge].
  - rewrite nth_error_app1 in Hi by exact Hlt. now apply H.
  - rewrite nth_error_app2 in Hi by exact Hge.
    destruct (i - List.length cc)%nat as [|j] eqn:E; simpl in Hi.
    + injection Hi as <- <-. f_equal. lia.
    + now destruct j.
Qed.

Lemma assign_class_present (cc : dict string) (n : Node.t) (c : string) :
  named_by_position cc ->
  dict_get cc (color_key n) = Some c -> assign_class cc n = cc.
Proof.
  intros Hcc Hget. unfold assign_class. fold (color_key n). rewrite Hget.
  apply dict_set_unchanged. rewrite Hget. f_equal.
  apply dict_get_some_in, In_nth_error in Hget. destruct Hget as [i Hi].
  apply Hcc in Hi. unfold class_at in Hi.
  destruct (dict_get predefined (color_key n)); congruence.
Qed.

Lemma assign_class_absent (cc : dict string) (n : Node.t) :
  dict_get cc (color_key n) = None ->
  assign_class cc n =
  (cc ++ [(color_key n, class_at (List.length cc) (color_key n))])%list.
Proof.
  intros Hget. unfold assign_class. fold (color_key n). rewrite Hget.
  now rewrite dict_set_fresh by exact Hget.
Qed.

Lemma fold_assign_spec (ns : list Node.t) (cc : dict string) :
  named_by_position cc ->
  named_by_position (fold_left assign_class ns cc) /\
  keys (fold_left assign_class ns cc) =
  (keys cc ++ first_seen (keys cc) (map color_key ns))%list.
Proof.
  revert cc. induction ns as [|n ns IH]; intros cc Hcc; simpl.
  - split; [exact Hcc | now rewrite app_nil_r].
  - rewrite dict_mem_existsb. unfold dict_mem.
    destruct (dict_get cc (color_key n)) as [c|] eqn:E.
    + rewrite (assign_class_present cc n c Hcc E). now apply IH.
    + rewrite (assign_class_absent cc n E).
      destruct (IH _ (named_by_position_snoc cc (color_key n) Hcc)) as [H1 H2].
      split; [exact H1|]. rewrite H2. unfold keys.
      rewrite map_app, <- app_assoc. reflexivity.
Qed.

Lemma color_table_spec (ns : list Node.t) :
  named_by_position (color_table ns) /\
  keys (color_table ns) = first_seen [] (map color_key ns).
Proof.
  apply (fold_assign_spec ns []). intros [|i] c nm H; discriminate.
Qed.

(** ** Hit testing *)

Lemma contains_point_sized (n : Node.t) (x y : Z) :
  sized n ->
  exists b, Node.contains_point n x y = Return b /\ (b = true <-> in_bbox n x y).
Proof.
  intros (w & h & Hw & Hh). unfold Node.contains_point, in_bbox.
  rewrite Hw, Hh. simpl.
  destruct (Z.leb_spec (Node.x n) x); simpl;
    [destruct (Z.leb_spec x (Node.x n + w)); simpl;
     [destruct (Z.leb_spec (Node.y n) y); simpl;
      [destruct (Z.leb_spec y (Node.y n + h))|]|]|];
    eexists; (split; [reflexivity|]);
    (split; [intros E; try discriminate E; exists w, h; repeat split; (assumption || lia)
            | intros (w' & h' & [= <-] & [= <-] & ? & ?); (reflexivity || lia)]).
Qed.

(** A hit means the node has its dimensions: both attributes were read. *)
Lemma contains_point_true (n : Node.t) (x y : Z) :
  Node.contains_point n x y = Return true -> in_bbox n x y.
Proof.
  unfold Node.contains_point, in_bbox.
  destruct (Z.leb_spec (Node.x n) x); simpl; [|discriminate].
  destruct (Node.width n) as [w|]; simpl; [|discriminate].
  destruct (Z.leb_spec x (Node.x n + w)); simpl; [|discriminate].
  destruct (Z.leb_spec (Node.y n) y); simpl; [|discriminate].
  destruct (Node.height n) as [h|]; simpl; [|discriminate].
  destruct (Z.leb_spec y (Node.y n + h)); [|discriminate].
  intros _. exists w, h. repeat split; (reflexivity || assumption).
Qed.

Lemma get_node_at_some (ns : list Node.t) (x y : Z) (n : Node.t) :
  get_node_at ns x y = Return (Some n) -> In n ns /\ in_bbox n x y.
Proof.
  induction ns as [|m ns IH]; simpl; [discriminate|].
  destruct (Node.contains_point m x y) as [[|]|e] eqn:E; simpl.
  - intros [= <-]. split; [now left | now apply contains_point_true].
  - intros H. destruct (IH H). split; [now right | assumption].
  - discriminate.
Qed.

(** ** The node store *)

Lemma store_keys_NoDup (ns : dict Node.t) (c : nat) :
  store_ok ns c -> NoDup (keys ns).
Proof. intros [-> _]. apply NoDup_ids. Qed.

(** A node of the store is found under its id. *)
Lemma store_lookup (ns : dict Node.t) (c : nat) (n : Node.t) :
  store_ok ns c -> In n (values ns) -> dict_get ns (Node.id n) = Some n.
Proof.
  intros Hs Hin. unfold values in Hin. apply in_map_iff in Hin.
  destruct Hin as ([k m] & <- & Hin). simpl.
  destruct Hs as [Hk Hid]. rewrite Forall_forall in Hid.
  pose proof (Hid _ Hin) as E. simpl in E. rewrite E.
  apply dict_get_in; [|exact Hin]. rewrite Hk. apply NoDup_ids.
Qed.

Lemma store_id (ns : dict Node.t) (c : nat) (r : string) (n : Node.t) :
  store_ok ns c -> dict_get ns r = Some n -> Node.id n = r.
Proof.
  intros [_ Hid] Hget. rewrite Forall_forall in Hid.
  exact (Hid _ (dict_get_some_in _ _ _ Hget)).
Qed.

Lemma Forall_dict_set {V : Type} (P : string * V -> Prop) (d : dict V)
    (k : string) (v : V) :
  Forall P d -> P (k, v) -> Forall P (dict_set d k v).
Proof.
  intros Hd Hkv. induction d as [|[k0 v0] d IH]; simpl.
  - now constructor.
  - inversion Hd as [|? ? H0 Hd']; subst.
    destruct (String.eqb_spec k0 k) as [->|Hne]; constructor; auto.
Qed.

(** Mutating a node in place keeps the store, as its id does not change. *)
Lemma store_ok_update (ns : dict Node.t) (c : nat) (r : string) (n n' : Node.t) :
  store_ok ns c -> dict_get ns r = Some n -> Node.id n' = Node.id n ->
  store_ok (dict_set ns r n') c.
Proof.
  intros Hs Hget Hid. pose proof (store_id _ _ _ _ Hs Hget) as Hr.
  destruct Hs as [Hk Hids]. split.
  - now rewrite (keys_set_present _ _ _ _ Hget).
  - apply Forall_dict_set; [exact Hids | simpl; congruence].
Qed.

Lemma store_fresh (ns : dict Node.t) (c : nat) :
  store_ok ns c -> dict_get ns (id_at c) = None.
Proof.
  intros [Hk _]. apply dict_get_none_keys. rewrite Hk.
  intros Hin. apply in_map_iff in Hin. destruct Hin as (j & Hj & Hin).
  apply id_at_inj in Hj. apply in_seq in Hin. lia.
Qed.

(** Creation appends the new node under the next id. *)
Lemma store_ok_insert (ns : dict Node.t) (c : nat) (n : Node.t) :
  store_ok ns c -> Node.id n = id_at c ->
  dict_set ns (id_at c) n = (ns ++ [(id_at c, n)])%list /\
  store_ok (dict_set ns (id_at c) n) (c + 1).
Proof.
  intros Hs Hid. pose proof (store_fresh _ _ Hs) as Hf.
  rewrite (dict_set_fresh _ _ _ Hf). split; [reflexivity|].
  destruct Hs as [Hk Hids]. split.
  - unfold keys in *. rewrite map_app, Hk, Nat.add_1_r, seq_S, map_app.
    reflexivity.
  - apply Forall_app. split; [exact Hids|]. now constructor.
Qed.

Lemma Node_init_id (i : string) (x y : Z) (txt sh f : string) :
  Node.id (Node.init i x y txt sh f) = i.
Proof.
  unfold Node.init.
  destruct (String.eqb sh "rectangle"), (String.eqb sh "diamond"); reflexivity.
Qed.

(** References survive updates that keep the dimensions, and insertions
    under a new key. *)
Lemma valid_ref_set (ns : dict Node.t) (r q : string) (n' : Node.t) :
  valid_ref ns q -> valid_ref (dict_set ns r n') q.
Proof.
  intros [m Hm]. destruct (String.eqb_spec q r) as [->|Hne].
  - exists n'. apply dict_get_set_same.
  - exists m. now rewrite dict_get_set_other.
Qed.

Lemma sized_ref_update (ns : dict Node.t) (r q : string) (n n' : Node.t) :
  dict_get ns r = Some n ->
  Node.width n' = Node.width n -> Node.height n' = Node.height n ->
  sized_ref ns q -> sized_ref (dict_set ns r n') q.
Proof.
  intros Hget Hw Hh (m & Hm & Hsz). destruct (String.eqb_spec q r) as [->|Hne].
  - exists n'. split; [apply dict_get_set_same|].
    rewrite Hget in Hm. injection Hm as <-.
    destruct Hsz as (w & h & ? & ?). exists w, h. split; congruence.
  - exists m. split; [now rewrite dict_get_set_other | exact Hsz].
Qed.

Lemma sized_ref_insert (ns : dict Node.t) (r q : string) (n' : Node.t) :
  dict_get ns r = None -> sized_ref ns q -> sized_ref (dict_set ns r n') q.
Proof.
  intros Hget (m & Hm & Hsz). exists m. split; [|exact Hsz].
  rewrite dict_get_set_other; [exact Hm | congruence].
Qed.

Lemma sized_ref_valid (ns : dict Node.t) (q : string) :
  sized_ref ns q -> valid_ref ns q.
Proof. intros (m & Hm & _). now exists m. Qed.

Lemma in_bbox_sized (n : Node.t) (x y : Z) : in_bbox n x y -> sized n.
Proof. intros (w & h & Hw & Hh & _). now exists w, h. Qed.

(** The node a click hits is a sized node of the store. *)
Lemma get_node_at_ref (s : t) (x y : Z) (n : Node.t) :
  store_ok (nodes s) (node_counter s) ->
  get_node_at (values (nodes s)) x y = Return (Some n) ->
  dict_get (nodes s) (Node.id n) = Some n /\ sized n.
Proof.
  intros Hs Hget. apply get_node_at_some in Hget. destruct Hget as [Hin Hbox].
  split; [now apply (store_lookup _ _ _ Hs) | now apply in_bbox_sized in Hbox].
Qed.

(** ** The handlers keep the invariant *)

Lemma stop_editing_eq (s : t) :
  stop_editing s =
  (Return tt,
   set_current_edit_node None
     (set_palette_panel false
        (match text_editor s with
         | Some _ => set_editor_window_id None (set_text_editor None s)
         | None => s
         end))).
Proof.
  unfold stop_editing, remove_text_editor, hide_palette_panel. run_method.
  destruct (text_editor s); reflexivity.
Qed.

Lemma stop_editing_inv (s : t) : Inv s -> Inv (snd (stop_editing s)).
Proof.
  intros H. split_inv H. rewrite stop_editing_eq.
  destruct (text_editor s) eqn:E; close_inv.
Qed.

Lemma update_node_eq (s : t) (r : string) (f : Node.t -> Node.t) (n : Node.t) :
  dict_get (nodes s) r = Some n ->
  update_node r f s = (Return tt, set_nodes (dict_set (nodes s) r (f n)) s).
Proof.
  intros H. unfold update_node, deref. run_method. reflexivity.
Qed.

Lemma update_node_dangling (s : t) (r : string) (f : Node.t -> Node.t) :
  dict_get (nodes s) r = None -> update_node r f s = (Raise (Dangling r), s).
Proof.
  intros H. unfold update_node, deref. run_method. reflexivity.
Qed.

(** A mutation that keeps the id and the dimensions keeps the
    invariant. *)
Lemma set_node_inv (s : t) (r : string) (n n' : Node.t) :
  Inv s -> dict_get (nodes s) r = Some n ->
  Node.id n' = Node.id n ->
  Node.width n' = Node.width n -> Node.height n' = Node.height n ->
  Inv (set_nodes (dict_set (nodes s) r n') s).
Proof.
  intros H Hget Hid Hw Hh. split_inv H. close_inv.
  - now apply (store_ok_update _ _ _ n).
  - eapply Forall_impl; [|exact Hedges]. simpl.
    intros e [? ?]. split; now apply (sized_ref_update _ _ _ n).
  - intros d Hd. now apply (sized_ref_update _ _ _ n), Hdrag.
  - intros a Ha. now apply (sized_ref_update _ _ _ n), Harrow.
  - intros c Hc. now apply valid_ref_set, Hcur.
  - intros ed He. now apply valid_ref_set, Hentry.
Qed.

Lemma update_node_inv (s : t) (r : string) (f : Node.t -> Node.t) :
  (forall n, Node.id (f n) = Node.id n /\ Node.width (f n) = Node.width n /\
             Node.height (f n) = Node.height n) ->
  Inv s -> Inv (snd (update_node r f s)).
Proof.
  intros Hf H. destruct (dict_get (nodes s) r) as [n|] eqn:E.
  - rewrite (update_node_eq _ _ _ _ E). simpl.
    destruct (Hf n) as (? & ? & ?). now apply (set_node_inv _ _ n).
  - now rewrite (update_node_dangling _ _ _ E).
Qed.

(** What [start_editing_node] leaves behind, for a node of the store. *)
Lemma start_editing_node_spec (s : t) (node : string) :
  let s' := snd (start_editing_node node s) in
  nodes s' = nodes s /\ edges s' = edges s /\
  node_counter s' = node_counter s /\
  dragging_node s' = dragging_node s /\
  (arrow_source s' = arrow_source s \/ arrow_source s' = None) /\
  current_edit_node s' = Some node /\
  (text_editor s' = text_editor s \/ text_editor s' = None \/
   exists txt, text_editor s' = Some (mkEntry txt node)).
Proof.
  destruct (current_edit_node s) as [c|] eqn:Ec;
    [destruct (String.eqb c node) eqn:Ecn|];
    destruct (text_editor s) as [ed|] eqn:Ee;
    (destruct (dict_get (nodes s) node) as [n|] eqn:En;
     [destruct (Node.get_center n) as [ctr|e] eqn:Eg|]);
    destruct (arrow_source s) eqn:Ea;
    unfold start_editing_node, stop_editing, remove_text_editor,
      hide_palette_panel, show_palette_panel, deref;
    run_method; repeat split; eauto.
Qed.

Lemma start_editing_node_inv (s : t) (node : string) :
  valid_ref (nodes s) node -> Inv s -> Inv (snd (start_editing_node node s)).
Proof.
  intros Hnode H.
  destruct (start_editing_node_spec s node) as (Hn & He & Hc & Hd & Ha & Hcur' & Hed).
  set (s' := snd (start_editing_node node s)) in *.
  split_inv H. split; [now rewrite Hn, Hc|].
  constructor; rewrite Hn.
  - now rewrite He.
  - now rewrite Hd.
  - intros a. destruct Ha as [-> | ->]; [apply Harrow | discriminate].
  - rewrite Hcur'. now intros c [= <-].
  - intros ed. destruct Hed as [-> | [-> | [txt ->]]];
      [apply Hentry | discriminate | now intros [= <-]].
Qed.

Lemma get_center_sized (n : Node.t) :
  sized n -> exists c, Node.get_center n = Return c.
Proof.
  intros (w & h & Hw & Hh). unfold Node.get_center. rewrite Hw, Hh.
  simpl. eauto.
Qed.

Lemma endpoints_sized (src tgt : Node.t) :
  sized src -> sized tgt ->
  exists sx sy tx ty,
    Node.get_center src = Return (sx, sy) /\
    Node.get_center tgt = Return (tx, ty) /\
    Edge.endpoints src tgt = Return (sx, sy, tx, ty).
Proof.
  intros Hs Ht.
  destruct (get_center_sized _ Hs) as [[sx sy] Es].
  destruct (get_center_sized _ Ht) as [[tx ty] Et].
  exists sx, sy, tx, ty. unfold Edge.endpoints. rewrite Es, Et. auto.
Qed.

(** Redrawing an edge whose two ends are sized nodes of the store: the
    line goes from centre to centre, the ends and the label stay. *)
Lemma edge_update_position_spec (ns : dict Node.t) (e : Edge.t) :
  sized_ref ns (Edge.source e) -> sized_ref ns (Edge.target e) ->
  exists e',
    Edge.update_position ns e = Return e' /\
    Edge.source e' = Edge.source e /\ Edge.target e' = Edge.target e /\
    Edge.label e' = Edge.label e /\ drawn_between_centers ns e'.
Proof.
  intros (src & Hsrc & Hs) (tgt & Htgt & Ht).
  destruct (endpoints_sized _ _ Hs Ht) as (sx & sy & tx & ty & Es & Et & Ee).
  unfold Edge.update_position. rewrite Hsrc, Htgt. simpl. rewrite Ee. simpl.
  eexists. split; [reflexivity|]. simpl. repeat split.
  exists src, tgt, sx, sy, tx, ty. simpl. auto.
Qed.

Lemma redraw_edges_spec (ns : dict Node.t) (d : string) (es : list Edge.t) :
  Forall (fun e => sized_ref ns (Edge.source e) /\
                   sized_ref ns (Edge.target e)) es ->
  exists es',
    redraw_edges ns d es = (Return tt, es') /\ Forall2 (redrawn ns d) es es'.
Proof.
  induction 1 as [|e es [Hs Ht] Hes (es' & IH & Hall)]; simpl.
  - exists []. split; [reflexivity | constructor].
  - rewrite IH.
    destruct (String.eqb_spec (Edge.source e) d) as [E1|E1]; simpl;
      [|destruct (String.eqb_spec (Edge.target e) d) as [E2|E2]].
    1,2: destruct (edge_update_position_spec ns e Hs Ht)
        as (e' & -> & H1 & H2 & H3 & H4);
      exists (e' :: es'); (split; [reflexivity|]);
      constructor; [|exact Hall]; repeat split; auto; intros; congruence.
    exists (e :: es'). split; [reflexivity|].
    constructor; [|exact Hall]. repeat split; auto. intros [?|?]; congruence.
Qed.

Lemma Forall2_redrawn_refs (ns : dict Node.t) (d : string) (es es' : list Edge.t) :
  Forall2 (redrawn ns d) es es' ->
  Forall (fun e => sized_ref ns (Edge.source e) /\
                   sized_ref ns (Edge.target e)) es ->
  Forall (fun e => sized_ref ns (Edge.source e) /\
                   sized_ref ns (Edge.target e)) es'.
Proof.
  induction 1 as [|e e' es es' (H1 & H2 & _) _ IH]; intros Hes;
    [constructor|].
  inversion Hes; subst. constructor; [rewrite H1, H2; assumption | auto].
Qed.

(** The invariant reads only these attributes. *)
Lemma Inv_ext (s s' : t) :
  nodes s' = nodes s -> edges s' = edges s ->
  node_counter s' = node_counter s ->
  dragging_node s' = dragging_node s -> arrow_source s' = arrow_source s ->
  current_edit_node s' = current_edit_node s ->
  text_editor s' = text_editor s ->
  Inv s -> Inv s'.
Proof.
  intros Hn He Hc Hd Ha Hcu Hte H. split_inv H.
  split; [now rewrite Hn, Hc|].
  constructor; rewrite Hn;
    [rewrite He | rewrite Hd | rewrite Ha | rewrite Hcu | rewrite Hte];
    assumption.
Qed.

Lemma on_right_click_inv (x y : Z) (s : t) :
  Inv s -> Inv (snd (on_right_click x y s)).
Proof. now apply Inv_ext. Qed.

Lemma on_release_inv (s : t) : Inv s -> Inv (snd (on_release s)).
Proof. intros H. split_inv H. close_inv. Qed.

Lemma get_mermaid_code_state (s : t) : snd (get_mermaid_code s) = s.
Proof.
  unfold get_mermaid_code. run_method.
  now destruct (mermaid_lines s).
Qed.

Lemma finish_editing_inv (s : t) : Inv s -> Inv (snd (finish_editing s)).
Proof.
  intros H. unfold finish_editing.
  assert (Hstop : forall s1, Inv s1 ->
            Inv (snd ((remove_text_editor ;; hide_palette_panel ;;
                       modify (set_current_edit_node None)) s1)))
    by (intros s1; apply stop_editing_inv).
  unfold bind at 1. unfold get at 1.
  destruct (current_edit_node s) as [c|] eqn:Ec;
    [destruct (text_editor s) as [ed|] eqn:Ee|].
  2,3: unfold bind at 1; unfold ret at 1; now apply Hstop.
  unfold bind at 1.
  pose proof (update_node_inv s c (fun n => Node.update_text n (entry_text ed))
                (fun n => conj eq_refl (conj eq_refl eq_refl)) H) as Hu.
  destruct (update_node c _ s) as [[[]|e] s1]; simpl in Hu; [|exact Hu].
  now apply Hstop.
Qed.

Lemma on_key_release_inv (typed : string) (s : t) :
  Inv s -> Inv (snd (on_key_release typed s)).
Proof.
  intros H. unfold on_key_release. unfold bind at 1. unfold get at 1.
  destruct (text_editor s) as [ed|] eqn:Ee; [|exact H].
  unfold bind, modify at 1.
  apply update_node_inv; [now intros n|].
  split_inv H. close_inv. intros ed' [= <-]. simpl. now apply Hentry.
Qed.

Lemma change_color_inv (color : string) (s : t) :
  Inv s -> Inv (snd (change_color color s)).
Proof.
  intros H. unfold change_color. unfold bind at 1. unfold get at 1.
  destruct (current_edit_node s) as [c|] eqn:Ec; [|exact H].
  now apply update_node_inv.
Qed.

Lemma on_double_click_inv (x y : Z) (s : t) :
  Inv s -> Inv (snd (on_double_click x y s)).
Proof.
  intros H. unfold on_double_click. unfold bind at 1. unfold get at 1.
  unfold bind at 1. unfold lift at 1.
  destruct (get_node_at (values (nodes s)) x y) as [[n|]|e] eqn:E;
    [|exact H|exact H].
  destruct (get_node_at_ref s x y n (proj1 H) E) as [Hget Hsz].
  unfold bind, modify. rewrite stop_editing_eq.
  split_inv H. destruct (text_editor s) eqn:Ee; close_inv;
    intros a [= <-]; now exists n.
Qed.

Lemma create_node_at_eq (shape : string) (s : t) (x y : Z) :
  context_menu_x s = Some x -> context_menu_y s = Some y ->
  create_node_at shape s =
  start_editing_node (id_at (node_counter s))
    (set_nodes
       (dict_set (nodes s) (id_at (node_counter s))
          (Node.init (id_at (node_counter s)) x y "Node" shape "#FFFFFF"))
       (set_node_counter (node_counter s + 1) s)).
Proof.
  intros Hx Hy. unfold create_node_at, get_new_node_id.
  unfold bind, get, lift, modify, ret. rewrite Hx, Hy. reflexivity.
Qed.

Lemma create_node_at_no_menu (shape : string) (s : t) :
  context_menu_x s = None \/ context_menu_y s = None ->
  snd (create_node_at shape s) = s.
Proof.
  unfold create_node_at, bind, get, lift.
  destruct (context_menu_x s), (context_menu_y s); intros [H|H];
    try discriminate H; reflexivity.
Qed.

Lemma create_node_at_inv (shape : string) (s : t) :
  Inv s -> Inv (snd (create_node_at shape s)).
Proof.
  intros H.
  destruct (context_menu_x s) as [x|] eqn:Ex;
    [destruct (context_menu_y s) as [y|] eqn:Ey|].
  2,3: rewrite create_node_at_no_menu; auto.
  rewrite (create_node_at_eq shape s x y Ex Ey).
  split_inv H.
  pose proof (store_fresh _ _ Hstore) as Hfresh.
  apply start_editing_node_inv; simpl.
  - eexists. apply dict_get_set_same.
  - close_inv.
    + apply store_ok_insert; [exact Hstore | apply Node_init_id].
    + eapply Forall_impl; [|exact Hedges]. simpl.
      intros e [? ?]. split; now apply sized_ref_insert.
    + intros d Hd. now apply sized_ref_insert, Hdrag.
    + intros a Ha. now apply sized_ref_insert, Harrow.
    + intros c Hc. now apply valid_ref_set, Hcur.
    + intros ed He. now apply valid_ref_set, Hentry.
Qed.

Lemma on_left_click_inv (x y : Z) (s : t) :
  Inv s -> Inv (snd (on_left_click x y s)).
Proof.
  intros H. unfold on_left_click. unfold bind at 1. unfold get at 1.
  destruct (arrow_source s) as [src|] eqn:Ea.
  - unfold bind at 1. unfold lift at 1.
    destruct (get_node_at (values (nodes s)) x y) as [[n|]|e] eqn:E;
      [|exact H|exact H].
    destruct (get_node_at_ref s x y n (proj1 H) E) as [Hget Hsz].
    destruct (String.eqb (Node.id n) src); [exact H|]. simpl negb. cbv iota.
    split_inv H.
    destruct (Harrow src Ea) as (sn & Hsn & Hssz).
    destruct (endpoints_sized _ _ Hssz Hsz) as (sx & sy & tx & ty & _ & _ & Ee).
    unfold deref, Edge.init. run_method.
    rewrite (store_id _ _ _ _ Hstore Hsn).
    close_inv. apply Forall_app. split; [exact Hedges|].
    constructor; [|constructor]. simpl. split; [now apply Harrow | now exists n].
  - unfold bind at 1. unfold lift at 1.
    destruct (get_node_at (values (nodes s)) x y) as [[n|]|e] eqn:E;
      [|now apply stop_editing_inv|exact H].
    destruct (get_node_at_ref s x y n (proj1 H) E) as [Hget Hsz].
    assert (Hv : valid_ref (nodes s) (Node.id n)) by now exists n.
    pose proof (start_editing_node_inv s _ Hv H) as H1.
    destruct (start_editing_node_spec s (Node.id n)) as (Hn & _).
    unfold bind.
    destruct (start_editing_node (Node.id n) s) as [[[]|e] s1];
      simpl in H1, Hn; [|exact H1].
    unfold modify. split_inv H1. close_inv.
    intros d [= <-]. rewrite Hn. now exists n.
Qed.

Lemma on_drag_eq (x y : Z) (s : t) (d : string) :
  Inv s -> dragging_node s = Some d ->
  exists n es' s1,
    dict_get (nodes s) d = Some n /\ sized n /\
    nodes s1 =
      dict_set (nodes s) d
        (Node.update_position n (x - drag_offset_x s) (y - drag_offset_y s)) /\
    edges s1 = edges s /\ node_counter s1 = node_counter s /\
    dragging_node s1 = Some d /\ arrow_source s1 = arrow_source s /\
    current_edit_node s1 = current_edit_node s /\
    text_editor s1 = text_editor s /\
    Forall2 (redrawn (nodes s1) d) (edges s) es' /\
    on_drag x y s = (Return tt, set_edges es' s1).
Proof.
  intros H Hd.
  destruct (proj2 H) as [_ Hdrag _ _ _].
  destruct (Hdrag d Hd) as (n & Hn & Hsz).
  set (n' := Node.update_position n (x - drag_offset_x s) (y - drag_offset_y s)).
  pose proof (set_node_inv s d n n' H Hn eq_refl eq_refl eq_refl) as H1.
  set (s0 := set_nodes (dict_set (nodes s) d n') s) in *.
  assert (Hsz' : sized n') by exact Hsz.
  destruct (get_center_sized _ Hsz') as [ctr Hctr].
  assert (Hn' : dict_get (nodes s0) d = Some n') by apply dict_get_set_same.
  assert (Hwin : exists s1,
    nodes s1 = nodes s0 /\ edges s1 = edges s /\
    node_counter s1 = node_counter s /\ dragging_node s1 = Some d /\
    arrow_source s1 = arrow_source s /\
    current_edit_node s1 = current_edit_node s /\
    text_editor s1 = text_editor s /\
    (match current_edit_node s0, text_editor s0 with
     | Some c, Some _ =>
         if String.eqb c d then
           n <- deref d ;; c <- lift (Node.get_center n) ;;
           modify (set_editor_window_id (Some c))
         else ret tt
     | _, _ => ret tt
     end) s0 = (Return tt, s1)).
  { destruct (current_edit_node s0) as [c|] eqn:Ec;
      [destruct (text_editor s0) as [ed|] eqn:Ee;
       [destruct (String.eqb c d) eqn:Ecd|]|].
    2,3,4: exists s0; repeat split; auto.
    exists (set_editor_window_id (Some ctr) s0).
    repeat split; auto.
    unfold deref, bind, get, lift, modify, ret. rewrite Hn'. cbv beta iota.
    rewrite Hctr. reflexivity. }
  destruct Hwin as (s1 & E1 & E2 & E3 & E4 & E5 & E6 & E7 & Hrun).
  assert (Inv1 : Inv s1) by (apply (Inv_ext s0); auto; now rewrite E4).
  destruct (proj2 Inv1) as [Hedges1 _ _ _ _].
  destruct (redraw_edges_spec (nodes s1) d (edges s1) Hedges1) as (es' & Er & Hall).
  exists n, es', s1. rewrite E2 in Hall.
  repeat split; auto.
  unfold on_drag. unfold bind at 1. unfold get at 1. rewrite Hd.
  unfold bind at 1. rewrite (update_node_eq s d _ n Hn). fold n'. fold s0.
  unfold bind at 1. unfold get at 1.
  unfold bind at 1. rewrite Hrun. now rewrite Er.
Qed.

Lemma on_drag_inv (x y : Z) (s : t) : Inv s -> Inv (snd (on_drag x y s)).
Proof.
  intros H. destruct (dragging_node s) as [d|] eqn:Hd.
  - destruct (on_drag_eq x y s d H Hd)
      as (n & es' & s1 & Hn & Hsz & E1 & E2 & E3 & E4 & E5 & E6 & E7 & Hall & ->).
    simpl.
    assert (Inv1 : Inv s1).
    { apply (Inv_ext (set_nodes (nodes s1) s)); auto.
      - now rewrite E4.
      - rewrite E1. now apply (set_node_inv s d n). }
    split_inv Inv1. close_inv.
    rewrite <- E2 in Hall. exact (Forall2_redrawn_refs _ _ _ _ Hall Hedges).
  - unfold on_drag, bind, get. now rewrite Hd.
Qed.

Theorem step_inv (s : t) (ev : event) : Inv s -> Inv (step s ev).
Proof.
  intros H. unfold step. destruct ev; simpl handler.
  - now apply on_right_click_inv.
  - now apply create_node_at_inv.
  - now apply on_left_click_inv.
  - now apply on_double_click_inv.
  - now apply on_drag_inv.
  - now apply on_release_inv.
  - now apply on_key_release_inv.
  - now apply finish_editing_inv.
  - now apply change_color_inv.
  - unfold bind. pose proof (get_mermaid_code_state s) as E.
    destruct (get_mermaid_code s) as [[a|e] s']; simpl in *; now subst.
Qed.

Lemma init_inv : Inv init.
Proof.
  split; [split; [reflexivity | constructor]|].
  constructor; simpl; try discriminate. constructor.
Qed.

Theorem run_inv (s : t) : reachable s -> Inv s.
Proof.
  intros [evs ->]. unfold run.
  assert (G : forall s0, Inv s0 -> Inv (fold_left step evs s0)).
  { induction evs as [|ev evs IH]; intros s0 H0; simpl; [exact H0|].
    now apply IH, step_inv. }
  apply G, init_inv.
Qed.

(** ** The id generator in a run *)

Lemma id_at_creation (k : nat) : (1 <= k)%nat -> id_at (k - 1) = id_of_creation k.
Proof.
  intros Hk. unfold id_of_creation.
  destruct (Nat.leb_spec k 26) as [Hle|Hgt].
  - rewrite id_at_letter by lia. reflexivity.
  - unfold id_at. destruct (Nat.ltb_spec (k - 1) 26); [lia | reflexivity].
Qed.

Lemma store_ids (ns : dict Node.t) (c : nat) :
  store_ok ns c -> map Node.id (values ns) = map id_at (seq 0 c).
Proof.
  intros [Hk Hid]. rewrite <- Hk. unfold values, keys.
  rewrite map_map. apply map_ext_in. intros kn Hin.
  rewrite Forall_forall in Hid. now apply Hid.
Qed.

(** C1, as the code has it: in every run of the editor the [k]-th node
    created has the [k]-th capital letter as its id when [k <= 26], and
    [N] followed by [k - 1] in decimal when [k > 26]; the generator's next
    id obeys the same rule, and every id issued is the id of a stored
    node. *)
Theorem created_ids_follow_counter (evs : list event) (k : nat) (node : Node.t) :
  (1 <= k)%nat ->
  nth_error (values (nodes (run evs))) (k - 1) = Some node ->
  Node.id node = id_of_creation k /\
  (k <= 26 -> Node.id node = letter k)%nat /\
  (k > 26 -> Node.id node = "N" ++ str (k - 1))%nat /\
  List.length (nodes (run evs)) = node_counter (run evs) /\
  fst (get_new_node_id (run evs)) =
    Return (id_of_creation (node_counter (run evs) + 1)).
Proof.
  intros Hk Hnth.
  destruct (run_inv (run evs) (ex_intro _ evs eq_refl)) as [Hstore _].
  pose proof (store_ids _ _ Hstore) as Hids.
  assert (Hid : Node.id node = id_at (k - 1)).
  { apply (map_nth_error Node.id) in Hnth.
    rewrite Hids, nth_error_map, nth_error_seq in Hnth.
    destruct (k - 1 <? node_counter (run evs))%nat; simpl in Hnth; congruence. }
  rewrite Hid, id_at_creation by exact Hk.
  repeat split.
  - intros Hle. unfold id_of_creation, letter.
    destruct (Nat.leb_spec k 26); [reflexivity | lia].
  - intros Hgt. unfold id_of_creation.
    destruct (Nat.leb_spec k 26); [lia | reflexivity].
  - destruct Hstore as [Hkeys _].
    apply (f_equal (@List.length _)) in Hkeys. unfold keys in Hkeys.
    now rewrite !length_map, length_seq in Hkeys.
  - rewrite get_new_node_id_eq. simpl. f_equal.
    rewrite <- id_at_creation by lia. f_equal. lia.
Qed.

Lemma created_ids_follow_counter_witness :
  exists node,
    nth_error (values (nodes (run creations_28))) (28 - 1) = Some node /\
    Node.id node = "N27".
Proof.
  eexists. split; [vm_compute; reflexivity|].
  refine (proj1 (created_ids_follow_counter creations_28 28 _ _ _));
    [lia | vm_compute; reflexivity].
Defined.

(** C1 as stated fails: the 27th node created has the id [N26]. *)
Lemma twenty_seventh_id_is_N26 :
  exists node,
    nth_error (values (nodes (run creations_28))) 26 = Some node /\
    Node.id node = "N26" /\ Node.id node <> "N27".
Proof.
  eexists. split; [vm_compute; reflexivity|].
  split; [reflexivity | discriminate].
Qed.

(** C9: in every run of the editor the ids of the nodes are pairwise
    distinct, they are the ids the generator issued (one per value of the
    counter), none was overwritten, and the id the generator issues next
    is none of them. *)
Theorem node_ids_unique (evs : list event) :
  NoDup (map Node.id (values (nodes (run evs)))) /\
  NoDup (keys (nodes (run evs))) /\
  map Node.id (values (nodes (run evs))) =
    map id_at (seq 0 (node_counter (run evs))) /\
  exists next,
    get_new_node_id (run evs) =
      (Return next, set_node_counter (node_counter (run evs) + 1) (run evs)) /\
    ~ In next (map Node.id (values (nodes (run evs)))).
Proof.
  destruct (run_inv (run evs) (ex_intro _ evs eq_refl)) as [Hstore _].
  pose proof (store_ids _ _ Hstore) as Hids.
  repeat split.
  - rewrite Hids. apply NoDup_ids.
  - now apply (store_keys_NoDup _ _ Hstore).
  - exact Hids.
  - exists (id_at (node_counter (run evs))). split; [reflexivity|].
    rewrite Hids. intros Hin. apply in_map_iff in Hin.
    destruct Hin as (j & Hj & Hin). apply id_at_inj in Hj.
    apply in_seq in Hin. lia.
Qed.

(** ** Dragging *)

(** C7: in every state the editor can reach, a pointer move while a node
    [d] is dragged completes without an exception, moves [d] to the
    pointer position minus the drag offset, and leaves every edge with
    the same ends and label; an edge whose source or target is [d] has its
    line drawn from the centre of its source to the centre of its target,
    as they are after the move, and every other edge is untouched. *)
Theorem drag_redraws_incident_edges (s : t) (d : string) (x y : Z) :
  reachable s -> dragging_node s = Some d ->
  exists n s',
    dict_get (nodes s) d = Some n /\
    on_drag x y s = (Return tt, s') /\
    nodes s' =
      dict_set (nodes s) d
        (Node.update_position n (x - drag_offset_x s) (y - drag_offset_y s)) /\
    Forall2 (redrawn (nodes s') d) (edges s) (edges s').
Proof.
  intros Hr Hd. apply run_inv in Hr.
  destruct (on_drag_eq x y s d Hr Hd)
    as (n & es' & s1 & Hn & _ & E1 & _ & _ & _ & _ & _ & _ & Hall & Heq).
  exists n, (set_edges es' s1). repeat split; auto.
Qed.

Lemma drag_redraws_incident_edges_witness :
  exists s',
    on_drag 30 40 dragging_A = (Return tt, s') /\
    Forall2 (redrawn (nodes s') "A") (edges dragging_A) (edges s').
Proof.
  destruct (drag_redraws_incident_edges dragging_A "A" 30 40)
    as (n & s' & _ & H1 & _ & H2).
  - now exists [RightClick 10 10; CreateNodeAt "rectangle";
                RightClick 200 10; CreateNodeAt "diamond";
                DoubleClick 20 20; LeftClick 210 20; LeftClick 20 20].
  - reflexivity.
  - now exists s'.
Defined.

(** ** Hit testing *)

(** C8: over nodes that have their dimensions (rectangles and diamonds
    alike), [get_node_at] returns the first node, in the order of the
    store, whose bounding box contains the point, and no node when no
    bounding box contains it. *)
Theorem get_node_at_first_hit (ns : list Node.t) (x y : Z) :
  Forall sized ns ->
  exists r,
    get_node_at ns x y = Return r /\
    match r with
    | Some node =>
        exists before after,
          ns = (before ++ node :: after)%list /\
          in_bbox node x y /\
          Forall (fun m => ~ in_bbox m x y) before
    | None => Forall (fun m => ~ in_bbox m x y) ns
    end.
Proof.
  induction 1 as [|n ns Hn Hns (r & Hr & IH)]; simpl.
  - exists None. split; [reflexivity | constructor].
  - destruct (contains_point_sized n x y Hn) as ([|] & -> & Hb); simpl.
    + exists (Some n). split; [reflexivity|].
      exists [], ns. repeat split; [now apply Hb | constructor].
    + assert (Hout : ~ in_bbox n x y) by (intros Hin; now apply Hb in Hin).
      exists r. split; [exact Hr|]. destruct r as [node|].
      * destruct IH as (before & after & -> & Hin & Hbefore).
        exists (n :: before), after. repeat split; auto.
      * now constructor.
Qed.

Lemma get_node_at_first_hit_witness :
  exists r,
    get_node_at [rect "A" 0 0 "#FFFFFF"; rect "B" 50 0 "#FFFFFF"] 60 10
      = Return r /\
    match r with
    | Some node =>
        exists before after,
          [rect "A" 0 0 "#FFFFFF"; rect "B" 50 0 "#FFFFFF"]
            = (before ++ node :: after)%list /\
          in_bbox node 60 10 /\
          Forall (fun m => ~ in_bbox m 60 10) before
    | None =>
        Forall (fun m => ~ in_bbox m 60 10)
               [rect "A" 0 0 "#FFFFFF"; rect "B" 50 0 "#FFFFFF"]
    end.
Proof.
  apply (get_node_at_first_hit
           [rect "A" 0 0 "#FFFFFF"; rect "B" 50 0 "#FFFFFF"] 60 10).
  repeat constructor; exists 100, 50; split; reflexivity.
Defined.

(** ** Connection mode *)

(** C4, as the code has it: while a connection from [src] is pending, a
    left click that hits the node [src] itself changes nothing: no edge
    is added, and the connection from [src] stays pending. *)
Theorem self_connection_ignored (s : t) (src : string) (node : Node.t) (x y : Z) :
  arrow_source s = Some src ->
  get_node_at (values (nodes s)) x y = Return (Some node) ->
  Node.id node = src ->
  on_left_click x y s = (Return tt, s) /\
  edges (step s (LeftClick x y)) = edges s /\
  arrow_source (step s (LeftClick x y)) = Some src.
Proof.
  intros Ha Hhit Hid.
  assert (E : on_left_click x y s = (Return tt, s)).
  { unfold on_left_click, bind, get, lift, ret.
    rewrite Ha, Hhit, Hid, String.eqb_refl. reflexivity. }
  unfold step. simpl handler. rewrite E. auto.
Qed.

Lemma self_connection_ignored_witness :
  on_left_click 20 20 connecting_from_A = (Return tt, connecting_from_A) /\
  edges (step connecting_from_A (LeftClick 20 20)) = edges connecting_from_A /\
  arrow_source (step connecting_from_A (LeftClick 20 20)) = Some "A".
Proof.
  apply (self_connection_ignored connecting_from_A "A"
           (Node.init "A" 10 10 "Node" "rectangle" "#FFFFFF") 20 20);
    reflexivity.
Defined.

(** C4 as stated fails: after the click on the source the connection is
    still pending. *)
Lemma self_click_keeps_connecting :
  arrow_source connecting_from_A = Some "A" /\
  get_node_at (values (nodes connecting_from_A)) 20 20
    = Return (Some (Node.init "A" 10 10 "Node" "rectangle" "#FFFFFF")) /\
  arrow_source (snd (on_left_click 20 20 connecting_from_A)) <> None.
Proof. repeat split. discriminate. Qed.

(** ** Creation with another shape *)

(** C3, as the code has it: once a right click has placed the menu,
    [create_node_at] with a shape that is neither [rectangle] nor
    [diamond] builds a node without width and height and stores it under
    the id the generator issues; the counter advances and the edges
    stay. *)
Theorem create_node_at_other_shape (s : t) (shape : string) (x y : Z) :
  shape <> "rectangle" -> shape <> "diamond" ->
  context_menu_x s = Some x -> context_menu_y s = Some y ->
  let s' := snd (create_node_at shape s) in
  let node_id := id_at (node_counter s) in
  nodes s' =
    dict_set (nodes s) node_id
      (Node.mk node_id x y "Node" shape "#FFFFFF" None None) /\
  node_counter s' = (node_counter s + 1)%nat /\
  edges s' = edges s.
Proof.
  intros Hr Hd Hx Hy. cbv zeta.
  rewrite (create_node_at_eq shape s x y Hx Hy).
  destruct (start_editing_node_spec
              (set_nodes
                 (dict_set (nodes s) (id_at (node_counter s))
                    (Node.init (id_at (node_counter s)) x y "Node" shape "#FFFFFF"))
                 (set_node_counter (node_counter s + 1) s))
              (id_at (node_counter s)))
    as (Hn & He & Hc & _).
  simpl in Hn, He, Hc. rewrite Hn, He, Hc. repeat split.
  unfold Node.init.
  apply String.eqb_neq in Hr, Hd. now rewrite Hr, Hd.
Qed.

Lemma create_node_at_other_shape_witness :
  nodes (snd (create_node_at "circle" (run [RightClick 10 10]))) =
    [("A", Node.mk "A" 10 10 "Node" "circle" "#FFFFFF" None None)] /\
  node_counter (snd (create_node_at "circle" (run [RightClick 10 10]))) = 1%nat /\
  edges (snd (create_node_at "circle" (run [RightClick 10 10]))) = [].
Proof.
  apply (create_node_at_other_shape (run [RightClick 10 10]) "circle" 10 10);
    (discriminate || reflexivity).
Defined.

(** C3 as stated fails: the call raises [AttributeError] when it opens
    the editor, after the node was stored. *)
Lemma other_shape_is_stored :
  fst (create_node_at "circle" (run [RightClick 10 10]))
    = Raise (AttributeError "width") /\
  nodes (snd (create_node_at "circle" (run [RightClick 10 10])))
    = [("A", Node.mk "A" 10 10 "Node" "circle" "#FFFFFF" None None)] /\
  nodes (snd (create_node_at "circle" (run [RightClick 10 10])))
    <> nodes (run [RightClick 10 10]).
Proof. repeat split. discriminate. Qed.

(** ** The serializer: the claims *)

(** C5: [get_mermaid_code] returns a string, never raises and leaves the
    editor as it was; the string depends on the nodes and the edges only,
    so two editors with the same model give the same string, and two
    calls in a row return the same string twice. *)
Theorem get_mermaid_code_pure (s1 s2 : t) :
  nodes s1 = nodes s2 -> edges s1 = edges s2 ->
  exists out,
    get_mermaid_code s1 = (Return out, s1) /\
    get_mermaid_code s2 = (Return out, s2) /\
    (a <- get_mermaid_code ;; b <- get_mermaid_code ;; ret (a, b)) s1
      = (Return (out, out), s1).
Proof.
  intros Hn He.
  destruct (mermaid_lines_eq s1) as (g & _ & H1).
  assert (H2 : mermaid_lines s2 = mermaid_lines s1)
    by (unfold mermaid_lines; now rewrite Hn, He).
  rewrite H1 in H2.
  apply get_mermaid_code_eq in H1, H2.
  eexists. split; [exact H1|]. split; [exact H2|].
  unfold bind, ret. rewrite H1. cbv beta iota. rewrite H1. reflexivity.
Qed.

Lemma get_mermaid_code_pure_witness :
  exists out,
    get_mermaid_code dragging_A = (Return out, dragging_A) /\
    get_mermaid_code (step dragging_A ButtonRelease)
      = (Return out, step dragging_A ButtonRelease) /\
    (a <- get_mermaid_code ;; b <- get_mermaid_code ;; ret (a, b)) dragging_A
      = (Return (out, out), dragging_A).
Proof.
  apply (get_mermaid_code_pure dragging_A (step dragging_A ButtonRelease));
    reflexivity.
Defined.

(** C6: the text starts with the fence and the header, then has one line
    per node in the order of the store, then one line per edge in the
    order of creation, then the class lines and the closing fence.  The
    line of a node is its id and its text in brackets for a rectangle, in
    braces for a diamond; the line of an edge is [source --> target;]
    without a label and [source -- label --> target;] with one.  Every
    line is indented by four spaces. *)
Theorem node_and_edge_lines (s : t) :
  (exists groups,
     get_mermaid_code s =
     (Return (String.concat newline
                (["```mermaid"; "graph TD;"]
                 ++ map node_line (values (nodes s))
                 ++ map edge_line (edges s)
                 ++ map classdef_line (color_table (values (nodes s)))
                 ++ map class_line groups
                 ++ ["```"])%list), s)) /\
  (forall i x y txt f w h,
     node_line (Node.mk i x y txt "rectangle" f w h)
       = "    " ++ i ++ "[" ++ txt ++ "];") /\
  (forall i x y txt f w h,
     node_line (Node.mk i x y txt "diamond" f w h)
       = "    " ++ i ++ "{" ++ txt ++ "};") /\
  (forall src tgt line lbl,
     edge_line (Edge.mk src tgt "" line lbl)
       = "    " ++ src ++ " --> " ++ tgt ++ ";") /\
  (forall src tgt c l line lbl,
     edge_line (Edge.mk src tgt (String c l) line lbl)
       = "    " ++ src ++ " -- " ++ String c l ++ " --> " ++ tgt ++ ";").
Proof.
  split; [|repeat split].
  destruct (mermaid_lines_eq s) as (g & _ & H).
  exists g. now apply get_mermaid_code_eq.
Qed.

(** C10: for a model without nodes and without edges the text is the
    opening fence, the header and the closing fence, on three lines. *)
Theorem empty_diagram_code (s : t) :
  nodes s = [] -> edges s = [] ->
  get_mermaid_code s =
  (Return ("```mermaid" ++ newline ++ "graph TD;" ++ newline ++ "```"), s) /\
  mermaid_lines s = Return ["```mermaid"; "graph TD;"; "```"].
Proof.
  intros Hn He.
  assert (H : mermaid_lines s = Return ["```mermaid"; "graph TD;"; "```"])
    by (unfold mermaid_lines; now rewrite Hn, He).
  split; [|exact H]. now rewrite (get_mermaid_code_eq _ _ H).
Qed.

Lemma empty_diagram_code_witness :
  get_mermaid_code init =
  (Return ("```mermaid" ++ newline ++ "graph TD;" ++ newline ++ "```"), init) /\
  mermaid_lines init = Return ["```mermaid"; "graph TD;"; "```"].
Proof. apply (empty_diagram_code init); reflexivity. Defined.

(** C2, as the code has it.  For a model of two nodes filled [#1E90FF]
    and one filled [#123456], in any order, the text has two [classDef]
    lines and two [class] lines that split the three ids by fill; the
    class of [#1E90FF] is [blue], and the class of [#123456] is [color1]
    when that node comes first and [color2] when it comes after a blue
    node.  In general the table has one class per colour in lower case,
    in the order of first appearance, and a colour that is not predefined
    and stands at position [i] of the table, the predefined colours
    counted, is named [color] followed by [i]. *)
Theorem color_classes_by_first_appearance :
  (forall (s : t) (n1 n2 n3 : Node.t),
     values (nodes s) = [n1; n2; n3] ->
     count_occ string_dec (map Node.fill [n1; n2; n3]) "#1E90FF" = 2%nat ->
     count_occ string_dec (map Node.fill [n1; n2; n3]) "#123456" = 1%nat ->
     let ids c :=
       map Node.id (filter (fun n => String.eqb (Node.fill n) c) [n1; n2; n3]) in
     let first := String.eqb (Node.fill n1) "#123456" in
     let other := if first then "color1" else "color2" in
     let blue_def :=
       "    classDef blue fill:#1e90ff,stroke:#000,stroke-width:2px;" in
     let other_def :=
       "    classDef " ++ other ++ " fill:#123456,stroke:#000,stroke-width:2px;" in
     let blue_class :=
       "    class " ++ String.concat "," (ids "#1E90FF") ++ " blue;" in
     let other_class :=
       "    class " ++ String.concat "," (ids "#123456") ++ " " ++ other ++ ";" in
     mermaid_lines s =
     Return (["```mermaid"; "graph TD;"]
             ++ map node_line [n1; n2; n3]
             ++ map edge_line (edges s)
             ++ (if first then [other_def; blue_def; other_class; blue_class]
                 else [blue_def; other_def; blue_class; other_class])
             ++ ["```"])%list) /\
  (forall s : t,
     let table := color_table (values (nodes s)) in
     (exists groups,
        mermaid_lines s =
        Return (["```mermaid"; "graph TD;"]
                ++ map node_line (values (nodes s))
                ++ map edge_line (edges s)
                ++ map classdef_line table
                ++ map class_line groups
                ++ ["```"])%list) /\
     keys table = first_seen [] (map color_key (values (nodes s))) /\
     forall i color name,
       nth_error table i = Some (color, name) ->
       name = match dict_get predefined color with
              | Some p => fst p
              | None => "color" ++ str (i + 1)
              end).
Proof.
  split.
  - intros s n1 n2 n3 Hv Hb Ho.
    destruct (mermaid_lines_eq s) as (g & Hg & ->).
    rewrite Hv in *. simpl in Hb, Ho.
    destruct (string_dec (Node.fill n1) "#1E90FF") as [E1|E1];
      destruct (string_dec (Node.fill n2) "#1E90FF") as [E2|E2];
      destruct (string_dec (Node.fill n3) "#1E90FF") as [E3|E3];
      try discriminate Hb;
      [rewrite E1, E2 in Ho | rewrite E1, E3 in Ho | rewrite E2, E3 in Ho];
      simpl in Ho;
      [destruct (string_dec (Node.fill n3) "#123456") as [F|F]
      |destruct (string_dec (Node.fill n2) "#123456") as [F|F]
      |destruct (string_dec (Node.fill n1) "#123456") as [F|F]];
      try discriminate Ho;
      unfold color_table, assign_class, add_to_group, color_key in *;
      simpl in Hg |- *; rewrite ?E1, ?E2, ?E3, ?F in Hg |- *;
      simpl in Hg |- *; injection Hg as <-; reflexivity.
  - intros s table. subst table.
    destruct (color_table_spec (values (nodes s))) as [Hnamed Hkeys].
    destruct (mermaid_lines_eq s) as (g & _ & H).
    split; [now exists g|]. split; [exact Hkeys|].
    intros i color name Hi. exact (Hnamed i color name Hi).
Qed.

Lemma color_classes_by_first_appearance_witness :
  mermaid_lines blue_blue_other =
  Return ["```mermaid"; "graph TD;";
          "    A[Node];"; "    B[Node];"; "    C[Node];";
          "    classDef blue fill:#1e90ff,stroke:#000,stroke-width:2px;";
          "    classDef color2 fill:#123456,stroke:#000,stroke-width:2px;";
          "    class A,B blue;"; "    class C color2;"; "```"].
Proof.
  apply (proj1 color_classes_by_first_appearance blue_blue_other
           (rect "A" 0 0 "#1E90FF") (rect "B" 150 0 "#1E90FF")
           (rect "C" 300 0 "#123456"));
    reflexivity.
Defined.

(** C2 as stated fails: after two blue nodes the colour [#123456] is
    named [color2], and no class is named [color1]. *)
Lemma other_color_after_blue_is_color2 :
  values (color_table (values (nodes blue_blue_other))) = ["blue"; "color2"] /\
  ~ In "color1" (values (color_table (values (nodes blue_blue_other)))) /\
  exists ls,
    mermaid_lines blue_blue_other = Return ls /\
    In "    classDef color2 fill:#123456,stroke:#000,stroke-width:2px;" ls /\
    ~ In "    classDef color1 fill:#123456,stroke:#000,stroke-width:2px;" ls.
Proof.
  split; [reflexivity|]. split.
  - simpl. intros [H|[H|[]]]; discriminate H.
  - eexists. split; [reflexivity|]. split.
    + simpl. tauto.
    + simpl. intros H.
      repeat (destruct H as [H|H]; [discriminate H|]). exact H.
Qed.

(** ** No dangling reference

    In a run of the editor every reference designates a node of the
    store: no handler ever meets [Dangling]. *)

Lemma contains_point_raises (n : Node.t) (x y : Z) (e : exn) :
  Node.contains_point n x y = Raise e -> exists a, e = AttributeError a.
Proof.
  unfold Node.contains_point.
  destruct (Node.x n <=? x); simpl; [|discriminate].
  destruct (Node.width n) as [w|]; simpl; [|intros [= <-]; eauto].
  destruct (x <=? Node.x n + w); simpl; [|discriminate].
  destruct (Node.y n <=? y); simpl; [|discriminate].
  destruct (Node.height n) as [h|]; simpl; [discriminate | intros [= <-]; eauto].
Qed.

Lemma get_node_at_raises (ns : list Node.t) (x y : Z) (e : exn) :
  get_node_at ns x y = Raise e -> exists a, e = AttributeError a.
Proof.
  induction ns as [|n ns IH]; simpl; [discriminate|].
  destruct (Node.contains_point n x y) as [[|]|e'] eqn:E; simpl.
  - discriminate.
  - exact IH.
  - intros [= <-]. exact (contains_point_raises _ _ _ _ E).
Qed.

Lemma get_center_raises (n : Node.t) (e : exn) :
  Node.get_center n = Raise e -> exists a, e = AttributeError a.
Proof.
  unfold Node.get_center.
  destruct (Node.width n); simpl; [|intros [= <-]; eauto].
  destruct (Node.height n); simpl; [discriminate | intros [= <-]; eauto].
Qed.

Lemma start_editing_node_no_dangling (s : t) (node r : string) :
  valid_ref (nodes s) node ->
  fst (start_editing_node node s) <> Raise (Dangling r).
Proof.
  intros [n En].
  destruct (current_edit_node s) as [c|] eqn:Ec;
    [destruct (String.eqb c node) eqn:Ecn|];
    destruct (text_editor s) as [ed|] eqn:Ee;
    destruct (Node.get_center n) as [ctr|e] eqn:Eg;
    destruct (arrow_source s) eqn:Ea;
    unfold start_editing_node, stop_editing, remove_text_editor,
      hide_palette_panel, show_palette_panel, deref;
    run_method; try discriminate;
    destruct (get_center_raises _ _ Eg) as [a ->]; discriminate.
Qed.

Lemma update_node_no_dangling (s : t) (q r : string) (f : Node.t -> Node.t) :
  valid_ref (nodes s) q -> fst (update_node q f s) <> Raise (Dangling r).
Proof.
  intros [n Hn]. now rewrite (update_node_eq _ _ _ _ Hn).
Qed.

Theorem handler_no_dangling (s : t) (ev : event) (r : string) :
  Inv s -> fst (handler ev s) <> Raise (Dangling r).
Proof.
  intros H. pose proof H as H0. split_inv H0.
  destruct ev; simpl handler.
  - discriminate.
  - destruct (context_menu_x s) as [x|] eqn:Ex;
      [destruct (context_menu_y s) as [y|] eqn:Ey|].
    + rewrite (create_node_at_eq shape s x y Ex Ey).
      apply start_editing_node_no_dangling. simpl.
      eexists. apply dict_get_set_same.
    + unfold create_node_at, bind, get, lift. rewrite Ex, Ey. discriminate.
    + unfold create_node_at, bind, get, lift. rewrite Ex. discriminate.
  - unfold on_left_click. unfold bind at 1. unfold get at 1.
    destruct (arrow_source s) as [src|] eqn:Ea;
      unfold bind at 1; unfold lift at 1;
      (destruct (get_node_at (values (nodes s)) x y) as [[n|]|e] eqn:E;
       [|try rewrite stop_editing_eq; discriminate
        |destruct (get_node_at_raises _ _ _ _ E) as [a ->]; discriminate]);
      destruct (get_node_at_ref s x y n Hstore E) as [Hget Hsz].
    + destruct (String.eqb (Node.id n) src); [discriminate|].
      simpl negb. cbv iota.
      destruct (Harrow src eq_refl) as (sn & Hsn & Hssz).
      destruct (endpoints_sized _ _ Hssz Hsz) as (sx & sy & tx & ty & _ & _ & Ee).
      unfold deref, Edge.init. run_method. discriminate.
    + assert (Hv : valid_ref (nodes s) (Node.id n)) by now exists n.
      pose proof (start_editing_node_no_dangling s _ r Hv) as Hnd.
      unfold bind.
      destruct (start_editing_node (Node.id n) s) as [[[]|e] s1];
        simpl in Hnd |- *; [discriminate | exact Hnd].
  - unfold on_double_click. unfold bind at 1. unfold get at 1.
    unfold bind at 1. unfold lift at 1.
    destruct (get_node_at (values (nodes s)) x y) as [[n|]|e] eqn:E.
    + unfold bind. rewrite stop_editing_eq. discriminate.
    + discriminate.
    + destruct (get_node_at_raises _ _ _ _ E) as [a ->]. discriminate.
  - destruct (dragging_node s) as [d|] eqn:Hd.
    + destruct (on_drag_eq x y s d H Hd)
        as (n & es' & s1 & _ & _ & _ & _ & _ & _ & _ & _ & _ & _ & Heq).
      rewrite Heq. discriminate.
    + unfold on_drag, bind, get. rewrite Hd. discriminate.
  - discriminate.
  - unfold on_key_release. unfold bind at 1. unfold get at 1.
    destruct (text_editor s) as [ed|] eqn:Ee; [|discriminate].
    unfold bind, modify at 1.
    apply update_node_no_dangling. simpl. now apply Hentry.
  - unfold finish_editing. unfold bind at 1. unfold get at 1.
    assert (Hstop : forall s1 : t,
              fst ((remove_text_editor ;; hide_palette_panel ;;
                    modify (set_current_edit_node None)) s1)
              <> Raise (Dangling r))
      by (intros s1; fold stop_editing; rewrite stop_editing_eq; discriminate).
    destruct (current_edit_node s) as [c|] eqn:Ec;
      [destruct (text_editor s) as [ed|] eqn:Ee|].
    2,3: unfold bind at 1; unfold ret at 1; apply Hstop.
    destruct (Hcur c eq_refl) as [n Hn].
    unfold bind at 1. rewrite (update_node_eq s c _ n Hn). apply Hstop.
  - unfold change_color. unfold bind at 1. unfold get at 1.
    destruct (current_edit_node s) as [c|] eqn:Ec; [|discriminate].
    apply update_node_no_dangling. now apply Hcur.
  - unfold bind. destruct (get_mermaid_code s) as [[a|e] s'] eqn:E;
      [discriminate|].
    destruct (mermaid_lines_eq s) as (g & _ & Hl).
    rewrite (get_mermaid_code_eq _ _ Hl) in E. discriminate E.
Qed.

(** ** Further properties of the handlers *)

(** *** Opening and closing the editor *)

Lemma editor_bound_ext (s s' : t) :
  text_editor s' = text_editor s ->
  current_edit_node s' = current_edit_node s ->
  editor_bound s -> editor_bound s'.
Proof. unfold editor_bound. intros -> ->. auto. Qed.

(** Opening the editor on a node that is not already being edited. *)
Lemma start_editing_node_open (s : t) (node : string) (n : Node.t) (c : Q * Q) :
  dict_get (nodes s) node = Some n -> Node.get_center n = Return c ->
  editor_bound s ->
  (current_edit_node s = Some node -> text_editor s = None) ->
  start_editing_node node s = (Return tt, editing s node n c).
Proof.
  intros Hn Hc Hb Hnew. unfold editing.
  destruct (current_edit_node s) as [c0|] eqn:Ec;
    [destruct (String.eqb_spec c0 node) as [->|Hne]|];
    destruct (text_editor s) as [ed|] eqn:Ee;
    try (specialize (Hnew eq_refl); discriminate Hnew);
    try (pose proof (Hb ed Ee); congruence);
    destruct (arrow_source s) eqn:Ea;
    unfold start_editing_node, stop_editing, remove_text_editor,
      hide_palette_panel, show_palette_panel, deref;
    run_method;
    try (apply String.eqb_neq in Hne; rewrite Hne);
    try rewrite String.eqb_refl;
    run_method;
    try reflexivity;
    destruct s; simpl in *; subst; reflexivity.
Qed.

(** Clicking again on the node that is being edited keeps the entry. *)
Lemma start_editing_node_again (s : t) (node : string) (ed : Entry) :
  current_edit_node s = Some node -> text_editor s = Some ed ->
  start_editing_node node s = (Return tt, s).
Proof.
  intros Hc He. unfold start_editing_node. run_method.
  rewrite String.eqb_refl. run_method.
  destruct s; simpl in *; now subst.
Qed.

Lemma start_editing_node_bound (s : t) (node : string) :
  editor_bound s -> editor_bound (snd (start_editing_node node s)).
Proof.
  intros Hb.
  destruct (current_edit_node s) as [c0|] eqn:Ec;
    [destruct (String.eqb_spec c0 node) as [->|Hne]|];
    destruct (text_editor s) as [ed|] eqn:Ee;
    try (pose proof (Hb ed Ee); congruence);
    try (rewrite (start_editing_node_again s node ed Ec Ee); exact Hb);
    (destruct (dict_get (nodes s) node) as [n|] eqn:En;
     [destruct (Node.get_center n) as [ctr|e] eqn:Eg|]);
    destruct (arrow_source s) eqn:Ea;
    unfold start_editing_node, stop_editing, remove_text_editor,
      hide_palette_panel, show_palette_panel, deref;
    run_method;
    try (apply String.eqb_neq in Hne; rewrite Hne);
    try rewrite String.eqb_refl;
    run_method;
    unfold editor_bound; simpl; rewrite ?Ee, ?Ec;
    intros ed' He'; try discriminate He'; injection He' as <-; reflexivity.
Qed.

Lemma start_editing_node_returns (s : t) (node : string) (n : Node.t) :
  dict_get (nodes s) node = Some n -> sized n ->
  fst (start_editing_node node s) = Return tt.
Proof.
  intros Hn Hsz. destruct (get_center_sized _ Hsz) as [c Hc].
  destruct (current_edit_node s) as [c0|] eqn:Ec;
    [destruct (String.eqb c0 node) eqn:Ecn|];
    destruct (text_editor s) as [ed|] eqn:Ee;
    destruct (arrow_source s) eqn:Ea;
    unfold start_editing_node, stop_editing, remove_text_editor,
      hide_palette_panel, show_palette_panel, deref;
    run_method; reflexivity.
Qed.

(** *** Clicks *)

Lemma edge_init_sized (sn tn : Node.t) :
  sized sn -> sized tn ->
  exists sx sy tx ty,
    Node.get_center sn = Return (sx, sy) /\
    Node.get_center tn = Return (tx, ty) /\
    Edge.init sn tn "" =
      Return (Edge.mk (Node.id sn) (Node.id tn) "" (sx, sy, tx, ty) None).
Proof.
  intros Hs Ht.
  destruct (endpoints_sized _ _ Hs Ht) as (sx & sy & tx & ty & Es & Et & Ee).
  exists sx, sy, tx, ty. repeat split; auto.
  unfold Edge.init. now rewrite Ee.
Qed.

(** A click on another node while a connection is pending. *)
Lemma on_left_click_connect (s : t) (src : string) (n : Node.t) (x y : Z) :
  Inv s -> arrow_source s = Some src ->
  get_node_at (values (nodes s)) x y = Return (Some n) ->
  Node.id n <> src ->
  exists sn e,
    dict_get (nodes s) src = Some sn /\ Node.id sn = src /\ sized sn /\
    dict_get (nodes s) (Node.id n) = Some n /\ sized n /\
    Edge.init sn n "" = Return e /\
    on_left_click x y s =
      (Return tt, set_arrow_source None (set_edges (edges s ++ [e])%list s)).
Proof.
  intros H Ha Hhit Hne. pose proof H as H0. split_inv H0.
  destruct (get_node_at_ref s x y n Hstore Hhit) as [Hget Hsz].
  destruct (Harrow src Ha) as (sn & Hsn & Hssz).
  destruct (edge_init_sized sn n Hssz Hsz) as (sx & sy & tx & ty & _ & _ & Ei).
  exists sn, (Edge.mk (Node.id sn) (Node.id n) "" (sx, sy, tx, ty) None).
  repeat split; auto.
  - exact (store_id _ _ _ _ Hstore Hsn).
  - apply String.eqb_neq in Hne.
    unfold on_left_click, deref. unfold bind, get, lift, modify, ret.
    rewrite Ha, Hhit, Hne. cbv beta iota delta [negb]. rewrite Hsn.
    cbv beta iota. rewrite Ei. reflexivity.
Qed.

(** A click on a node while no connection is pending. *)
Lemma on_left_click_select (s : t) (n : Node.t) (x y : Z) :
  Inv s -> arrow_source s = None ->
  get_node_at (values (nodes s)) x y = Return (Some n) ->
  exists s1,
    start_editing_node (Node.id n) s = (Return tt, s1) /\
    on_left_click x y s =
      (Return tt,
       set_dragging (Some (Node.id n)) (x - Node.x n) (y - Node.y n) s1).
Proof.
  intros H Ha Hhit.
  destruct (get_node_at_ref s x y n (proj1 H) Hhit) as [Hget Hsz].
  pose proof (start_editing_node_returns s _ n Hget Hsz) as Hret.
  destruct (start_editing_node (Node.id n) s) as [r s1] eqn:E.
  simpl in Hret. subst r. exists s1. split; [reflexivity|].
  unfold on_left_click. unfold bind, get, lift, modify.
  rewrite Ha, Hhit, E. reflexivity.
Qed.

Lemma redraw_edges_label_item (ns : dict Node.t) (d : string)
    (es es' : list Edge.t) (r : outcome unit) :
  redraw_edges ns d es = (r, es') ->
  Forall2 (fun e e' => Edge.label_item e = None -> Edge.label_item e' = None)
          es es'.
Proof.
  revert es' r. induction es as [|e es IH]; simpl; intros es' r H.
  - injection H as _ <-. constructor.
  - destruct (redraw_edges ns d es) as [r0 es0].
    assert (Hrefl : forall l : list Edge.t,
              Forall2 (fun e e' => Edge.label_item e = None ->
                                   Edge.label_item e' = None) l l)
      by (induction l; constructor; auto).
    destruct (String.eqb (Edge.source e) d || String.eqb (Edge.target e) d).
    + destruct (Edge.update_position ns e) as [e'|ex] eqn:Eu.
      * injection H as _ <-. constructor; [|now apply (IH es0 r0)].
        unfold Edge.update_position in Eu.
        destruct (dict_get ns (Edge.source e)) as [src|]; simpl in Eu;
          [|discriminate].
        destruct (dict_get ns (Edge.target e)) as [tgt|]; simpl in Eu;
          [|discriminate].
        destruct (Edge.endpoints src tgt); simpl in Eu; [|discriminate].
        injection Eu as <-. simpl. now intros ->.
      * injection H as _ <-. apply Hrefl.
    + injection H as _ <-. constructor; [auto | now apply (IH es0 r0)].
Qed.

(** A pointer move while [d] is dragged, step by step. *)
Lemma on_drag_run (x y : Z) (s : t) (d : string) :
  Inv s -> dragging_node s = Some d ->
  exists n es' s1,
    dict_get (nodes s) d = Some n /\ sized n /\
    nodes s1 =
      dict_set (nodes s) d
        (Node.update_position n (x - drag_offset_x s) (y - drag_offset_y s)) /\
    edges s1 = edges s /\ node_counter s1 = node_counter s /\
    dragging_node s1 = Some d /\ arrow_source s1 = arrow_source s /\
    current_edit_node s1 = current_edit_node s /\
    text_editor s1 = text_editor s /\
    redraw_edges (nodes s1) d (edges s) = (Return tt, es') /\
    Forall2 (redrawn (nodes s1) d) (edges s) es' /\
    on_drag x y s = (Return tt, set_edges es' s1).
Proof.
  intros H Hd.
  destruct (proj2 H) as [_ Hdrag _ _ _].
  destruct (Hdrag d Hd) as (n & Hn & Hsz).
  set (n' := Node.update_position n (x - drag_offset_x s) (y - drag_offset_y s)).
  pose proof (set_node_inv s d n n' H Hn eq_refl eq_refl eq_refl) as H1.
  set (s0 := set_nodes (dict_set (nodes s) d n') s) in *.
  assert (Hsz' : sized n') by exact Hsz.
  destruct (get_center_sized _ Hsz') as [ctr Hctr].
  assert (Hn' : dict_get (nodes s0) d = Some n') by apply dict_get_set_same.
  assert (Hwin : exists s1,
    nodes s1 = nodes s0 /\ edges s1 = edges s /\
    node_counter s1 = node_counter s /\ dragging_node s1 = Some d /\
    arrow_source s1 = arrow_source s /\
    current_edit_node s1 = current_edit_node s /\
    text_editor s1 = text_editor s /\
    (match current_edit_node s0, text_editor s0 with
     | Some c, Some _ =>
         if String.eqb c d then
           n <- deref d ;; c <- lift (Node.get_center n) ;;
           modify (set_editor_window_id (Some c))
         else ret tt
     | _, _ => ret tt
     end) s0 = (Return tt, s1)).
  { destruct (current_edit_node s0) as [c|] eqn:Ec;
      [destruct (text_editor s0) as [ed|] eqn:Ee;
       [destruct (String.eqb c d) eqn:Ecd|]|].
    2,3,4: exists s0; repeat split; auto.
    exists (set_editor_window_id (Some ctr) s0).
    repeat split; auto.
    unfold deref, bind, get, lift, modify, ret. rewrite Hn'. cbv beta iota.
    rewrite Hctr. reflexivity. }
  destruct Hwin as (s1 & E1 & E2 & E3 & E4 & E5 & E6 & E7 & Hrun).
  assert (Inv1 : Inv s1) by (apply (Inv_ext s0); auto; now rewrite E4).
  destruct (proj2 Inv1) as [Hedges1 _ _ _ _].
  destruct (redraw_edges_spec (nodes s1) d (edges s1) Hedges1) as (es' & Er & Hall).
  exists n, es', s1. rewrite E2 in Hall, Er.
  repeat split; auto.
  unfold on_drag. unfold bind at 1. unfold get at 1. rewrite Hd.
  unfold bind at 1. rewrite (update_node_eq s d _ n Hn). fold n'. fold s0.
  unfold bind at 1. unfold get at 1.
  unfold bind at 1. rewrite Hrun, E2. now rewrite Er.
Qed.

(** *** Every callback changes the model in one of five ways *)

Lemma stop_editing_model (s : t) :
  nodes (snd (stop_editing s)) = nodes s /\
  edges (snd (stop_editing s)) = edges s /\
  node_counter (snd (stop_editing s)) = node_counter s /\
  arrow_source (snd (stop_editing s)) = arrow_source s /\
  dragging_node (snd (stop_editing s)) = dragging_node s /\
  current_edit_node (snd (stop_editing s)) = None /\
  text_editor (snd (stop_editing s)) = None /\
  palette_panel (snd (stop_editing s)) = false.
Proof.
  rewrite stop_editing_eq. destruct (text_editor s) eqn:E; simpl; auto 10.
Qed.

Lemma finish_editing_eq (s : t) :
  finish_editing s =
  match current_edit_node s, text_editor s with
  | Some c, Some ed =>
      match dict_get (nodes s) c with
      | Some n =>
          stop_editing
            (set_nodes
               (dict_set (nodes s) c (Node.update_text n (entry_text ed))) s)
      | None => (Raise (Dangling c), s)
      end
  | _, _ => stop_editing s
  end.
Proof.
  unfold finish_editing, stop_editing. unfold bind at 1. unfold get at 1.
  destruct (current_edit_node s) as [c|]; [destruct (text_editor s) as [ed|]|];
    try reflexivity.
  unfold bind at 1.
  destruct (dict_get (nodes s) c) as [n|] eqn:En.
  - now rewrite (update_node_eq _ _ _ _ En).
  - now rewrite (update_node_dangling _ _ _ En).
Qed.

Lemma on_key_release_eq (typed : string) (s : t) :
  on_key_release typed s =
  match text_editor s with
  | Some ed =>
      let s0 := set_text_editor (Some (mkEntry typed (entry_node ed))) s in
      match dict_get (nodes s) (entry_node ed) with
      | Some n =>
          (Return tt,
           set_nodes
             (dict_set (nodes s) (entry_node ed) (Node.update_text n typed)) s0)
      | None => (Raise (Dangling (entry_node ed)), s0)
      end
  | None => (Return tt, s)
  end.
Proof.
  unfold on_key_release. unfold bind at 1. unfold get at 1.
  destruct (text_editor s) as [ed|]; [|reflexivity].
  unfold bind, modify at 1. cbv zeta.
  destruct (dict_get (nodes s) (entry_node ed)) as [n|] eqn:En.
  - now rewrite (update_node_eq _ _ _ n) by exact En.
  - now rewrite update_node_dangling by exact En.
Qed.

Lemma change_color_eq (color : string) (s : t) :
  change_color color s =
  match current_edit_node s with
  | Some c =>
      match dict_get (nodes s) c with
      | Some n =>
          (Return tt,
           set_nodes (dict_set (nodes s) c (Node.update_color n color)) s)
      | None => (Raise (Dangling c), s)
      end
  | None => (Return tt, s)
  end.
Proof.
  unfold change_color. unfold bind at 1. unfold get at 1.
  destruct (current_edit_node s) as [c|]; [|reflexivity].
  destruct (dict_get (nodes s) c) as [n|] eqn:En.
  - now rewrite (update_node_eq _ _ _ n) by exact En.
  - now rewrite update_node_dangling by exact En.
Qed.

Lemma on_double_click_eq (x y : Z) (s : t) :
  on_double_click x y s =
  match get_node_at (values (nodes s)) x y with
  | Return (Some n) =>
      (Return tt, set_arrow_source (Some (Node.id n)) (snd (stop_editing s)))
  | Return None => (Return tt, s)
  | Raise e => (Raise e, s)
  end.
Proof.
  unfold on_double_click. unfold bind at 1. unfold get at 1.
  unfold bind at 1. unfold lift at 1.
  destruct (get_node_at (values (nodes s)) x y) as [[n|]|e]; try reflexivity.
  unfold bind, modify. now rewrite stop_editing_eq.
Qed.

(** A click that neither connects nor selects. *)
Lemma on_left_click_other (x y : Z) (s : t) :
  match arrow_source s, get_node_at (values (nodes s)) x y with
  | Some src, Return (Some n) =>
      Node.id n = src -> on_left_click x y s = (Return tt, s)
  | Some _, Return None => on_left_click x y s = (Return tt, s)
  | None, Return None => on_left_click x y s = stop_editing s
  | _, Raise e => on_left_click x y s = (Raise e, s)
  | None, Return (Some _) => True
  end.
Proof.
  destruct (arrow_source s) as [src|] eqn:Ea;
    destruct (get_node_at (values (nodes s)) x y) as [[n|]|e] eqn:Eh;
    try exact I; try intros Hid;
    unfold on_left_click, bind, get, lift, ret; rewrite Ea, Eh;
    try (rewrite Hid, String.eqb_refl); reflexivity.
Qed.

Theorem step_change_inv (s : t) (ev : event) :
  Inv s -> change ev s (step s ev).
Proof.
  intros H. unfold step. destruct ev; simpl handler.
  - now apply Unchanged.
  - destruct (context_menu_x s) as [x|] eqn:Ex;
      [destruct (context_menu_y s) as [y|] eqn:Ey|].
    2,3: rewrite create_node_at_no_menu by auto; now apply Unchanged.
    rewrite (create_node_at_eq shape s x y Ex Ey).
    match goal with |- change _ _ (snd (start_editing_node ?i ?s0)) =>
      destruct (start_editing_node_spec s0 i) as (Hn & He & Hc & _) end.
    simpl in Hn, He, Hc.
    apply (Created _ s _ shape x y); auto.
    rewrite Hn. apply store_ok_insert; [exact (proj1 H) | apply Node_init_id].
  - pose proof (on_left_click_other x y s) as Ho.
    destruct (arrow_source s) as [src|] eqn:Ea;
      destruct (get_node_at (values (nodes s)) x y) as [[n|]|e] eqn:Eh;
      try (rewrite Ho; now apply Unchanged).
    + destruct (String.eqb_spec (Node.id n) src) as [Heq|Hne].
      * rewrite (Ho Heq). now apply Unchanged.
      * destruct (on_left_click_connect s src n x y H Ea Eh Hne)
          as (sn & e & Hsn & Hid & _ & Hn & _ & Hi & ->).
        subst src. now apply (Connected _ s _ sn n e x y).
    + destruct (on_left_click_select s n x y H Ea Eh) as (s1 & E1 & ->).
      destruct (start_editing_node_spec s (Node.id n)) as (Hn & He & Hc & _).
      rewrite E1 in Hn, He, Hc. now apply Unchanged.
    + rewrite Ho. destruct (stop_editing_model s) as (? & ? & ? & _).
      now apply Unchanged.
  - rewrite on_double_click_eq.
    destruct (get_node_at (values (nodes s)) x y) as [[n|]|e];
      try (now apply Unchanged).
    destruct (stop_editing_model s) as (? & ? & ? & _). now apply Unchanged.
  - destruct (dragging_node s) as [d|] eqn:Hd.
    + destruct (on_drag_run x y s d H Hd)
        as (n & es' & s1 & Hn & _ & E1 & E2 & E3 & _ & _ & _ & _ & Er & Hall & ->).
      apply (Moved _ s _ d n x y); simpl; auto.
      exact (redraw_edges_label_item _ _ _ _ _ Er).
    + unfold on_drag, bind, get. rewrite Hd. now apply Unchanged.
  - now apply Unchanged.
  - rewrite on_key_release_eq.
    destruct (text_editor s) as [ed|]; [|now apply Unchanged].
    cbv zeta. destruct (dict_get (nodes s) (entry_node ed)) as [n|] eqn:En;
      [|now apply Unchanged].
    apply (Restyled _ s _ (entry_node ed) n (Node.update_text n typed)); auto.
    left. now exists typed.
  - rewrite finish_editing_eq.
    destruct (current_edit_node s) as [c|];
      [destruct (text_editor s) as [ed|] eqn:Ee;
       [destruct (dict_get (nodes s) c) as [n|] eqn:En|]|].
    + match goal with |- change _ _ (snd (stop_editing ?s0)) =>
        destruct (stop_editing_model s0) as (Hn & He & Hc & _) end.
      apply (Restyled _ s _ c n (Node.update_text n (entry_text ed))); auto.
      right. left. now exists ed.
    + now apply Unchanged.
    + destruct (stop_editing_model s) as (? & ? & ? & _). now apply Unchanged.
    + destruct (stop_editing_model s) as (? & ? & ? & _). now apply Unchanged.
  - rewrite change_color_eq.
    destruct (current_edit_node s) as [c|]; [|now apply Unchanged].
    destruct (dict_get (nodes s) c) as [n|] eqn:En; [|now apply Unchanged].
    apply (Restyled _ s _ c n (Node.update_color n color)); auto.
    right. right. now exists color.
  - unfold bind. pose proof (get_mermaid_code_state s) as E.
    destruct (get_mermaid_code s) as [[a|e] s']; simpl in *; subst;
      now apply Unchanged.
Qed.

(** *** The entry stays bound to the current node *)

Lemma step_editor_bound (s : t) (ev : event) :
  Inv s -> editor_bound s -> editor_bound (step s ev).
Proof.
  intros H Hb. unfold step. destruct ev; simpl handler.
  - now apply (editor_bound_ext s).
  - destruct (context_menu_x s) as [x|] eqn:Ex;
      [destruct (context_menu_y s) as [y|] eqn:Ey|].
    2,3: rewrite create_node_at_no_menu by auto; exact Hb.
    rewrite (create_node_at_eq shape s x y Ex Ey).
    apply start_editing_node_bound. now apply (editor_bound_ext s).
  - pose proof (on_left_click_other x y s) as Ho.
    destruct (arrow_source s) as [src|] eqn:Ea;
      destruct (get_node_at (values (nodes s)) x y) as [[n|]|e] eqn:Eh;
      try (rewrite Ho; exact Hb).
    + destruct (String.eqb_spec (Node.id n) src) as [Heq|Hne].
      * now rewrite (Ho Heq).
      * destruct (on_left_click_connect s src n x y H Ea Eh Hne)
          as (sn & e & _ & _ & _ & _ & _ & _ & ->).
        now apply (editor_bound_ext s).
    + destruct (on_left_click_select s n x y H Ea Eh) as (s1 & E1 & ->).
      pose proof (start_editing_node_bound s (Node.id n) Hb) as Hb1.
      rewrite E1 in Hb1. now apply (editor_bound_ext s1).
    + rewrite Ho. destruct (stop_editing_model s) as (_ & _ & _ & _ & _ & _ & He & _).
      intros ed Hed. rewrite He in Hed. discriminate Hed.
  - rewrite on_double_click_eq.
    destruct (get_node_at (values (nodes s)) x y) as [[n|]|e]; try exact Hb.
    destruct (stop_editing_model s) as (_ & _ & _ & _ & _ & _ & He & _).
    intros ed Hed. simpl in Hed. rewrite He in Hed. discriminate Hed.
  - destruct (dragging_node s) as [d|] eqn:Hd.
    + destruct (on_drag_run x y s d H Hd)
        as (n & es' & s1 & _ & _ & _ & _ & _ & _ & _ & E6 & E7 & _ & _ & ->).
      now apply (editor_bound_ext s).
    + unfold on_drag, bind, get. now rewrite Hd.
  - now apply (editor_bound_ext s).
  - rewrite on_key_release_eq.
    destruct (text_editor s) as [ed|] eqn:Ee; [|exact Hb].
    cbv zeta. pose proof (Hb ed Ee) as Hc.
    destruct (dict_get (nodes s) (entry_node ed)) as [n|];
      intros ed' [= <-]; exact Hc.
  - rewrite finish_editing_eq.
    assert (Hstop : forall s0, editor_bound (snd (stop_editing s0))).
    { intros s0 ed Hed.
      destruct (stop_editing_model s0) as (_ & _ & _ & _ & _ & _ & He & _).
      rewrite He in Hed. discriminate Hed. }
    destruct (current_edit_node s) as [c|] eqn:Ec;
      [destruct (text_editor s) as [ed|] eqn:Ee;
       [destruct (dict_get (nodes s) c) as [n|] eqn:En|]|];
      try apply Hstop.
    exact Hb.
  - rewrite change_color_eq.
    destruct (current_edit_node s) as [c|] eqn:Ec; [|exact Hb].
    destruct (dict_get (nodes s) c) as [n|]; [|exact Hb].
    now apply (editor_bound_ext s).
  - unfold bind. pose proof (get_mermaid_code_state s) as E.
    destruct (get_mermaid_code s) as [[a|e] s']; simpl in *; now subst.
Qed.

(** *** The edges stay plain and drawn between the centres *)

Lemma edge_init_fields (sn tn : Node.t) (e : Edge.t) :
  Edge.init sn tn "" = Return e ->
  exists sx sy tx ty,
    Node.get_center sn = Return (sx, sy) /\
    Node.get_center tn = Return (tx, ty) /\
    e = Edge.mk (Node.id sn) (Node.id tn) "" (sx, sy, tx, ty) None.
Proof.
  unfold Edge.init, Edge.endpoints.
  destruct (Node.get_center sn) as [[sx sy]|]; simpl; [|discriminate].
  destruct (Node.get_center tn) as [[tx ty]|]; simpl; [|discriminate].
  intros [= <-]. now exists sx, sy, tx, ty.
Qed.

Lemma redrawn_plain (ns : dict Node.t) (d : string) (es es' : list Edge.t) :
  Forall2 (redrawn ns d) es es' ->
  Forall2 (fun e e' => Edge.label_item e = None -> Edge.label_item e' = None)
          es es' ->
  Forall plain_edge es -> Forall plain_edge es'.
Proof.
  induction 1 as [|e e' es es' (H1 & H2 & H3 & _) _ IH]; intros Hlab Hp;
    [constructor|].
  inversion Hlab as [|? ? ? ? Hl Hlab']; subst.
  inversion Hp as [|? ? (P1 & P2 & P3) Hp']; subst.
  constructor; [|now apply IH].
  repeat split; [rewrite H1, H2; exact P1 | congruence | auto].
Qed.

Lemma change_plain (ev : event) (s s' : t) :
  change ev s s' -> Forall plain_edge (edges s) -> Forall plain_edge (edges s').
Proof.
  intros [Hn He Hc|r n n' _ _ _ He _|sh x y _ _ _ _ He _
         |sn tn e px py _ _ _ _ Hne Hi _ He _
         |d n px py _ _ _ _ Hred Hlab _] Hp;
    try (rewrite He; exact Hp).
  - rewrite He. apply Forall_app. split; [exact Hp|].
    destruct (edge_init_fields _ _ _ Hi) as (sx & sy & tx & ty & _ & _ & ->).
    constructor; [|constructor]. repeat split; simpl; congruence.
  - exact (redrawn_plain _ _ _ _ Hred Hlab Hp).
Qed.

Lemma get_center_same_geometry (n n' : Node.t) :
  Node.x n' = Node.x n -> Node.y n' = Node.y n ->
  Node.width n' = Node.width n -> Node.height n' = Node.height n ->
  Node.get_center n' = Node.get_center n.
Proof. unfold Node.get_center. now intros -> -> -> ->. Qed.

Lemma drawn_restyled (ns : dict Node.t) (r : string) (n n' : Node.t) (e : Edge.t) :
  dict_get ns r = Some n -> Node.get_center n' = Node.get_center n ->
  drawn_between_centers ns e -> drawn_between_centers (dict_set ns r n') e.
Proof.
  intros Hr Hc (src & tgt & sx & sy & tx & ty & Hs & Ht & Cs & Ct & Hl).
  assert (G : forall q m c, dict_get ns q = Some m -> Node.get_center m = Return c ->
            exists m', dict_get (dict_set ns r n') q = Some m' /\
                       Node.get_center m' = Return c).
  { intros q m c Hq Hm. destruct (String.eqb_spec q r) as [->|Hne].
    - exists n'. split; [apply dict_get_set_same|]. congruence.
    - exists m. split; [now rewrite dict_get_set_other | exact Hm]. }
  destruct (G _ _ _ Hs Cs) as (src' & ? & ?).
  destruct (G _ _ _ Ht Ct) as (tgt' & ? & ?).
  exists src', tgt', sx, sy, tx, ty. auto.
Qed.

Lemma dict_get_app_some {V : Type} (d : dict V) (k q : string) (v w : V) :
  dict_get d q = Some w -> dict_get (d ++ [(k, v)])%list q = Some w.
Proof.
  induction d as [|[k0 v0] d IH]; simpl; [discriminate|].
  destruct (String.eqb k0 q); auto.
Qed.

Lemma drawn_created (ns : dict Node.t) (k : string) (v : Node.t) (e : Edge.t) :
  drawn_between_centers ns e ->
  drawn_between_centers (ns ++ [(k, v)])%list e.
Proof.
  intros (src & tgt & sx & sy & tx & ty & Hs & Ht & Cs & Ct & Hl).
  exists src, tgt, sx, sy, tx, ty.
  repeat split; auto using dict_get_app_some.
Qed.

Lemma drawn_elsewhere (ns : dict Node.t) (d : string) (n' : Node.t) (e : Edge.t) :
  Edge.source e <> d -> Edge.target e <> d ->
  drawn_between_centers ns e -> drawn_between_centers (dict_set ns d n') e.
Proof.
  intros H1 H2 (src & tgt & sx & sy & tx & ty & Hs & Ht & Cs & Ct & Hl).
  exists src, tgt, sx, sy, tx, ty.
  rewrite !dict_get_set_other by assumption. auto.
Qed.

Lemma redrawn_drawn (ns ns' : dict Node.t) (d : string) (n' : Node.t)
    (es es' : list Edge.t) :
  forall n : Node.t, dict_get ns d = Some n ->
  ns' = dict_set ns d n' ->
  Forall2 (redrawn ns' d) es es' ->
  Forall (drawn_between_centers ns) es ->
  Forall (drawn_between_centers ns') es'.
Proof.
  intros n Hd ->.
  induction 1 as [|e e' es es' (_ & _ & _ & Hinc & Hnot) _ IH]; intros Hp;
    [constructor|].
  inversion Hp as [|? ? He Hp']; subst.
  constructor; [|now apply IH].
  destruct (String.eqb_spec (Edge.source e) d) as [E1|E1];
    [now apply Hinc; left|].
  destruct (String.eqb_spec (Edge.target e) d) as [E2|E2];
    [now apply Hinc; right|].
  rewrite (Hnot E1 E2). now apply drawn_elsewhere.
Qed.

Lemma change_drawn (ev : event) (s s' : t) :
  change ev s s' ->
  Forall (drawn_between_centers (nodes s)) (edges s) ->
  Forall (drawn_between_centers (nodes s')) (edges s').
Proof.
  intros [Hn He Hc|r n n' Hr Hsty Hn He _|sh x y _ _ _ Hn He _
         |sn tn e px py _ _ Hsn Htn _ Hi Hn He _
         |d n px py _ _ Hd Hn Hred _ _] Hp.
  - now rewrite Hn, He.
  - rewrite Hn, He. eapply Forall_impl; [|exact Hp]. intros e.
    apply (drawn_restyled _ _ n); [exact Hr|].
    destruct Hsty as [(typed & _ & ->)|[(ed & _ & _ & ->)|(c & _ & ->)]];
      reflexivity.
  - rewrite Hn, He. eapply Forall_impl; [|exact Hp]. intros e.
    apply drawn_created.
  - rewrite Hn, He. apply Forall_app. split; [exact Hp|].
    destruct (edge_init_fields _ _ _ Hi) as (sx & sy & tx & ty & Cs & Ct & ->).
    constructor; [|constructor].
    exists sn, tn, sx, sy, tx, ty. simpl. auto.
  - exact (redrawn_drawn _ _ _ _ _ _ n Hd Hn Hred Hp).
Qed.

(** What holds in every state the editor reaches, beside [Inv]. *)
Lemma run_more (s : t) :
  reachable s ->
  editor_bound s /\ Forall plain_edge (edges s) /\
  Forall (drawn_between_centers (nodes s)) (edges s).
Proof.
  intros [evs ->]. unfold run.
  assert (G : forall s0,
    Inv s0 ->
    editor_bound s0 /\ Forall plain_edge (edges s0) /\
    Forall (drawn_between_centers (nodes s0)) (edges s0) ->
    editor_bound (fold_left step evs s0) /\
    Forall plain_edge (edges (fold_left step evs s0)) /\
    Forall (drawn_between_centers (nodes (fold_left step evs s0)))
           (edges (fold_left step evs s0))).
  { induction evs as [|ev evs IH]; intros s0 H0 (Hb & Hp & Hd); simpl; [auto|].
    pose proof (step_change_inv s0 ev H0) as Hch.
    apply IH; [now apply step_inv|].
    repeat split.
    - now apply step_editor_bound.
    - now apply (change_plain ev s0).
    - now apply (change_drawn ev s0). }
  apply G; [apply init_inv|].
  repeat split; try constructor. intros ed Hed. discriminate Hed.
Qed.

(** ** Further properties: the edges *)

(** X1: in every run of the editor, every edge joins two different nodes
    of the store that have their dimensions, and has no label. *)
Theorem edges_join_two_stored_nodes (evs : list event) :
  Forall (fun e => Edge.source e <> Edge.target e /\
                   Edge.label e = "" /\ Edge.label_item e = None /\
                   sized_ref (nodes (run evs)) (Edge.source e) /\
                   sized_ref (nodes (run evs)) (Edge.target e))
         (edges (run evs)).
Proof.
  assert (Hr : reachable (run evs)) by now exists evs.
  destruct (run_more _ Hr) as (_ & Hp & _).
  destruct (run_inv _ Hr) as [_ [He _ _ _ _]].
  rewrite Forall_forall in *. intros e Hin.
  destruct (Hp e Hin) as (? & ? & ?). destruct (He e Hin). auto.
Qed.

(** X2: in every run of the editor, the line of every edge goes from the
    centre of its source to the centre of its target, as the two nodes
    are now: no edge is left behind by a move. *)
Theorem edges_follow_their_nodes (evs : list event) :
  Forall (drawn_between_centers (nodes (run evs))) (edges (run evs)).
Proof.
  assert (Hr : reachable (run evs)) by now exists evs.
  now destruct (run_more _ Hr) as (_ & _ & Hd).
Qed.

(** X3: a click on a node other than the source, while a connection is
    pending, appends one edge from the source to that node, without a
    label and drawn between the two centres, and ends the connection
    mode; nothing else changes. *)
Theorem click_on_other_node_connects (s : t) (src : string) (n : Node.t) (x y : Z) :
  reachable s -> arrow_source s = Some src ->
  get_node_at (values (nodes s)) x y = Return (Some n) ->
  Node.id n <> src ->
  exists sn sx sy tx ty,
    dict_get (nodes s) src = Some sn /\
    dict_get (nodes s) (Node.id n) = Some n /\
    Node.get_center sn = Return (sx, sy) /\
    Node.get_center n = Return (tx, ty) /\
    on_left_click x y s =
      (Return tt,
       set_arrow_source None
         (set_edges
            (edges s ++ [Edge.mk src (Node.id n) "" (sx, sy, tx, ty) None])%list
            s)).
Proof.
  intros Hr Ha Hhit Hne. apply run_inv in Hr.
  destruct (on_left_click_connect s src n x y Hr Ha Hhit Hne)
    as (sn & e & Hsn & Hid & _ & Hn & _ & Hi & Heq).
  destruct (edge_init_fields _ _ _ Hi) as (sx & sy & tx & ty & Cs & Ct & ->).
  exists sn, sx, sy, tx, ty. rewrite Hid in Heq. auto.
Qed.

Lemma click_on_other_node_connects_witness :
  exists e,
    edges (snd (on_left_click 210 20
                  (run [RightClick 10 10; CreateNodeAt "rectangle";
                        RightClick 200 10; CreateNodeAt "diamond";
                        DoubleClick 20 20]))) = [e] /\
    Edge.source e = "A" /\ Edge.target e = "B".
Proof.
  destruct (click_on_other_node_connects
              (run [RightClick 10 10; CreateNodeAt "rectangle";
                    RightClick 200 10; CreateNodeAt "diamond";
                    DoubleClick 20 20])
              "A" (Node.init "B" 200 10 "Node" "diamond" "#FFFFFF") 210 20)
    as (sn & sx & sy & tx & ty & _ & _ & _ & _ & E).
  - now eexists.
  - reflexivity.
  - reflexivity.
  - discriminate.
  - rewrite E. eexists. simpl. repeat split.
Defined.

(** X4: a click on the empty canvas while a connection is pending changes
    nothing: the connection stays pending. *)
Theorem click_on_canvas_keeps_connection (s : t) (src : string) (x y : Z) :
  arrow_source s = Some src ->
  get_node_at (values (nodes s)) x y = Return None ->
  on_left_click x y s = (Return tt, s).
Proof.
  intros Ha Hhit. pose proof (on_left_click_other x y s) as Ho.
  now rewrite Ha, Hhit in Ho.
Qed.

Lemma click_on_canvas_keeps_connection_witness :
  on_left_click 500 500 connecting_from_A = (Return tt, connecting_from_A).
Proof.
  apply (click_on_canvas_keeps_connection connecting_from_A "A" 500 500);
    reflexivity.
Defined.

(** ** Further properties: selecting, dragging, typing *)

Lemma select_state (s : t) (n : Node.t) :
  Inv s -> editor_bound s ->
  dict_get (nodes s) (Node.id n) = Some n -> sized n ->
  exists s1 txt,
    start_editing_node (Node.id n) s = (Return tt, s1) /\
    nodes s1 = nodes s /\ edges s1 = edges s /\
    node_counter s1 = node_counter s /\
    current_edit_node s1 = Some (Node.id n) /\
    text_editor s1 = Some (mkEntry txt (Node.id n)).
Proof.
  intros H Hb Hget Hsz. destruct (get_center_sized _ Hsz) as [c Hc].
  destruct (current_edit_node s) as [c0|] eqn:Ec.
  - destruct (text_editor s) as [ed|] eqn:Ee.
    + destruct (String.eqb_spec c0 (Node.id n)) as [->|Hne].
      * exists s, (entry_text ed).
        rewrite (start_editing_node_again s _ ed Ec Ee).
        repeat split; auto. pose proof (Hb ed Ee) as Hbe.
        rewrite Ec in Hbe. injection Hbe as ->. now destruct ed.
      * exists (editing s (Node.id n) n c), (Node.text n).
        rewrite (start_editing_node_open s _ n c Hget Hc Hb); [now repeat split|].
        congruence.
    + exists (editing s (Node.id n) n c), (Node.text n).
      rewrite (start_editing_node_open s _ n c Hget Hc Hb); now repeat split.
  - exists (editing s (Node.id n) n c), (Node.text n).
    rewrite (start_editing_node_open s _ n c Hget Hc Hb); [now repeat split|].
    congruence.
Qed.

(** X5: a click on a node while no connection is pending makes it the
    current node, with an entry open for it, and starts a drag whose
    offset is the pointer position relative to the node; the nodes and
    the edges are as before. *)
Theorem click_selects_and_grabs (s : t) (n : Node.t) (x y : Z) :
  reachable s -> arrow_source s = None ->
  get_node_at (values (nodes s)) x y = Return (Some n) ->
  exists s' txt,
    on_left_click x y s = (Return tt, s') /\
    nodes s' = nodes s /\ edges s' = edges s /\
    current_edit_node s' = Some (Node.id n) /\
    text_editor s' = Some (mkEntry txt (Node.id n)) /\
    dragging_node s' = Some (Node.id n) /\
    drag_offset_x s' = x - Node.x n /\ drag_offset_y s' = y - Node.y n.
Proof.
  intros Hr Ha Hhit. pose proof (run_inv _ Hr) as H.
  destruct (run_more _ Hr) as (Hb & _).
  destruct (get_node_at_ref s x y n (proj1 H) Hhit) as [Hget Hsz].
  destruct (select_state s n H Hb Hget Hsz)
    as (s1 & txt & E1 & Hn & He & _ & Hc & Ht).
  destruct (on_left_click_select s n x y H Ha Hhit) as (s1' & E1' & ->).
  rewrite E1 in E1'. injection E1' as <-.
  eexists. exists txt. split; [reflexivity|]. simpl. auto 10.
Qed.

Lemma click_selects_and_grabs_witness :
  exists s' txt,
    on_left_click 20 25 (run [RightClick 10 10; CreateNodeAt "rectangle"])
      = (Return tt, s') /\
    nodes s' = nodes (run [RightClick 10 10; CreateNodeAt "rectangle"]) /\
    edges s' = edges (run [RightClick 10 10; CreateNodeAt "rectangle"]) /\
    current_edit_node s' = Some "A" /\
    text_editor s' = Some (mkEntry txt "A") /\
    dragging_node s' = Some "A" /\
    drag_offset_x s' = 20 - 10 /\ drag_offset_y s' = 25 - 10.
Proof.
  apply (click_selects_and_grabs
           (run [RightClick 10 10; CreateNodeAt "rectangle"])
           (Node.init "A" 10 10 "Node" "rectangle" "#FFFFFF") 20 25);
    [now eexists | reflexivity | reflexivity].
Defined.

(** X6: pressing the button on a node at [(x0, y0)] and moving the
    pointer to [(x1, y1)] moves the node by the displacement of the
    pointer and changes nothing else in the node. *)
Theorem drag_follows_pointer (s : t) (n : Node.t) (x0 y0 x1 y1 : Z) :
  reachable s -> arrow_source s = None ->
  get_node_at (values (nodes s)) x0 y0 = Return (Some n) ->
  nodes (step (step s (LeftClick x0 y0)) (Motion x1 y1)) =
  dict_set (nodes s) (Node.id n)
    (Node.update_position n (Node.x n + (x1 - x0)) (Node.y n + (y1 - y0))).
Proof.
  intros Hr Ha Hhit. pose proof (run_inv _ Hr) as H.
  destruct (run_more _ Hr) as (Hb & _).
  destruct (get_node_at_ref s x0 y0 n (proj1 H) Hhit) as [Hget Hsz].
  destruct (on_left_click_select s n x0 y0 H Ha Hhit) as (s1 & E1 & E).
  destruct (start_editing_node_spec s (Node.id n)) as (Hn & _).
  rewrite E1 in Hn. simpl in Hn.
  pose proof (step_inv s (LeftClick x0 y0) H) as H1.
  unfold step at 2. unfold step at 1 in H1. simpl handler in *.
  rewrite E in *. simpl snd in *.
  match type of H1 with Inv ?s2 =>
    destruct (on_drag_run x1 y1 s2 (Node.id n) H1 eq_refl)
      as (m & es' & s3 & Hm & _ & E3 & _ & _ & _ & _ & _ & _ & _ & _ & Hrun)
  end.
  unfold step. simpl handler. rewrite Hrun. simpl in *.
  rewrite E3, Hn. rewrite Hn, Hget in Hm. injection Hm as <-.
  f_equal. f_equal; lia.
Qed.

Lemma drag_follows_pointer_witness :
  nodes (step (step (run [RightClick 10 10; CreateNodeAt "rectangle"])
                 (LeftClick 20 25)) (Motion 120 75)) =
  [("A", Node.mk "A" 110 60 "Node" "rectangle" "#FFFFFF" (Some 100) (Some 50))].
Proof.
  apply (drag_follows_pointer
           (run [RightClick 10 10; CreateNodeAt "rectangle"])
           (Node.init "A" 10 10 "Node" "rectangle" "#FFFFFF") 20 25 120 75);
    [now eexists | reflexivity | reflexivity].
Defined.



(** ** Further properties: creation and connection *)

(** X8: once a right click has placed the menu, creating a rectangle or
    a diamond never raises: the node is appended to the store under the
    next id, at the menu position, with the text [Node], a white fill and
    the dimensions of its shape; an entry holding [Node] is opened for it
    at its centre, it becomes the current node, and a pending connection
    is dropped. *)
Theorem create_node_at_known_shape (s : t) (shape : string) (x y : Z) :
  reachable s -> shape = "rectangle" \/ shape = "diamond" ->
  context_menu_x s = Some x -> context_menu_y s = Some y ->
  exists node c s',
    node = Node.mk (id_at (node_counter s)) x y "Node" shape "#FFFFFF"
             (Some 100)
             (Some (if String.eqb shape "rectangle" then 50 else 60)) /\
    Node.get_center node = Return c /\
    create_node_at shape s = (Return tt, s') /\
    nodes s' = (nodes s ++ [(id_at (node_counter s), node)])%list /\
    edges s' = edges s /\ node_counter s' = (node_counter s + 1)%nat /\
    current_edit_node s' = Some (id_at (node_counter s)) /\
    text_editor s' = Some (mkEntry "Node" (id_at (node_counter s))) /\
    editor_window_id s' = Some c /\ arrow_source s' = None /\
    dragging_node s' = dragging_node s.
Proof.
  intros Hr Hsh Hx Hy. pose proof (run_inv _ Hr) as H.
  destruct (run_more _ Hr) as (Hb & _).
  set (i := id_at (node_counter s)).
  set (node := Node.mk i x y "Node" shape "#FFFFFF" (Some 100)
                 (Some (if String.eqb shape "rectangle" then 50 else 60))).
  assert (Hinit : Node.init i x y "Node" shape "#FFFFFF" = node)
    by (destruct Hsh as [-> | ->]; reflexivity).
  assert (Hsz : sized node) by (eexists _, _; split; reflexivity).
  destruct (get_center_sized _ Hsz) as [c Hc].
  destruct (store_ok_insert _ _ node (proj1 H) eq_refl) as [Happ _].
  fold i in Happ.
  exists node, c. eexists. split; [reflexivity|]. split; [exact Hc|].
  rewrite (create_node_at_eq shape s x y Hx Hy). fold i. rewrite Hinit.
  rewrite (start_editing_node_open _ i node c).
  - split; [reflexivity|]. simpl. rewrite Happ. auto 10.
  - simpl. apply dict_get_set_same.
  - exact Hc.
  - now apply (editor_bound_ext s).
  - simpl. intros Hcur. exfalso.
    destruct (proj2 H) as [_ _ _ Hcurrent _].
    destruct (Hcurrent i Hcur) as [m Hm].
    pose proof (store_fresh _ _ (proj1 H)) as Hf. fold i in Hf. congruence.
Qed.

Lemma create_node_at_known_shape_witness :
  exists node c s',
    node = Node.mk "A" 10 10 "Node" "diamond" "#FFFFFF" (Some 100) (Some 60) /\
    Node.get_center node = Return c /\
    create_node_at "diamond" (run [RightClick 10 10]) = (Return tt, s') /\
    nodes s' = [("A", node)] /\
    edges s' = [] /\ node_counter s' = 1%nat /\
    current_edit_node s' = Some "A" /\
    text_editor s' = Some (mkEntry "Node" "A") /\
    editor_window_id s' = Some c /\ arrow_source s' = None /\
    dragging_node s' = None.
Proof.
  apply (create_node_at_known_shape (run [RightClick 10 10]) "diamond" 10 10);
    [now exists [RightClick 10 10] | now right | reflexivity | reflexivity].
Defined.

(** X9: a double click on a node followed by a click on another node
    appends one edge from the first to the second, drawn between their
    centres, and leaves the editor out of connection mode with no entry
    open; the nodes are untouched. *)
Theorem double_click_then_click_connects (s : t) (a b : Node.t)
    (xa ya xb yb : Z) :
  reachable s ->
  get_node_at (values (nodes s)) xa ya = Return (Some a) ->
  get_node_at (values (nodes s)) xb yb = Return (Some b) ->
  Node.id b <> Node.id a ->
  exists sx sy tx ty,
    Node.get_center a = Return (sx, sy) /\
    Node.get_center b = Return (tx, ty) /\
    edges (step (step s (DoubleClick xa ya)) (LeftClick xb yb)) =
      (edges s ++
       [Edge.mk (Node.id a) (Node.id b) "" (sx, sy, tx, ty) None])%list /\
    nodes (step (step s (DoubleClick xa ya)) (LeftClick xb yb)) = nodes s /\
    arrow_source (step (step s (DoubleClick xa ya)) (LeftClick xb yb)) = None /\
    text_editor (step (step s (DoubleClick xa ya)) (LeftClick xb yb)) = None.
Proof.
  intros Hr Ha Hb Hne. pose proof (run_inv _ Hr) as H.
  destruct (get_node_at_ref s xa ya a (proj1 H) Ha) as [Hga Hsa].
  pose proof (step_inv s (DoubleClick xa ya) H) as H1.
  set (s1 := step s (DoubleClick xa ya)) in *.
  assert (E1 : s1 = set_arrow_source (Some (Node.id a)) (snd (stop_editing s))).
  { unfold s1, step. simpl handler. now rewrite on_double_click_eq, Ha. }
  destruct (stop_editing_model s) as (Hn & He & _ & _ & _ & _ & Ht & _).
  assert (Hn1 : nodes s1 = nodes s) by (rewrite E1; exact Hn).
  assert (He1 : edges s1 = edges s) by (rewrite E1; exact He).
  assert (Ht1 : text_editor s1 = None) by (rewrite E1; exact Ht).
  assert (Ha1 : arrow_source s1 = Some (Node.id a)) by now rewrite E1.
  assert (Hb1 : get_node_at (values (nodes s1)) xb yb = Return (Some b))
    by now rewrite Hn1.
  destruct (on_left_click_connect s1 (Node.id a) b xb yb H1 Ha1 Hb1 Hne)
    as (sn & e & Hsn & _ & _ & _ & _ & Hi & Heq).
  rewrite Hn1, Hga in Hsn. injection Hsn as <-.
  destruct (edge_init_fields _ _ _ Hi) as (sx & sy & tx & ty & Cs & Ct & ->).
  exists sx, sy, tx, ty. split; [exact Cs|]. split; [exact Ct|].
  unfold step. simpl handler. rewrite Heq. simpl.
  rewrite He1, Hn1, Ht1. auto.
Qed.

Lemma double_click_then_click_connects_witness :
  exists sx sy tx ty,
    edges (step (step (run [RightClick 10 10; CreateNodeAt "rectangle";
                            RightClick 200 10; CreateNodeAt "diamond"])
                   (DoubleClick 20 20)) (LeftClick 210 20)) =
    [Edge.mk "A" "B" "" (sx, sy, tx, ty) None].
Proof.
  destruct (double_click_then_click_connects
              (run [RightClick 10 10; CreateNodeAt "rectangle";
                    RightClick 200 10; CreateNodeAt "diamond"])
              (Node.init "A" 10 10 "Node" "rectangle" "#FFFFFF")
              (Node.init "B" 200 10 "Node" "diamond" "#FFFFFF")
              20 20 210 20)
    as (sx & sy & tx & ty & _ & _ & E & _).
  - now eexists.
  - reflexivity.
  - reflexivity.
  - discriminate.
  - exists sx, sy, tx, ty. exact E.
Defined.

(** ** Further properties: nothing is lost *)

Lemma same_identity_refl (n : Node.t) : same_identity n n.
Proof. repeat split. Qed.

Lemma same_identity_trans (a b c : Node.t) :
  same_identity a b -> same_identity b c -> same_identity a c.
Proof.
  intros (A1 & A2 & A3 & A4) (B1 & B2 & B3 & B4).
  repeat split; congruence.
Qed.

Lemma Forall2_same_ends_refl (es : list Edge.t) :
  Forall2 (fun e e' => Edge.source e' = Edge.source e /\
                       Edge.target e' = Edge.target e /\
                       Edge.label e' = Edge.label e) es es.
Proof. induction es; constructor; auto. Qed.

Lemma Forall2_same_ends_trans (l1 l2 l3 : list Edge.t) :
  Forall2 (fun e e' => Edge.source e' = Edge.source e /\
                       Edge.target e' = Edge.target e /\
                       Edge.label e' = Edge.label e) l1 l2 ->
  Forall2 (fun e e' => Edge.source e' = Edge.source e /\
                       Edge.target e' = Edge.target e /\
                       Edge.label e' = Edge.label e) l2 l3 ->
  Forall2 (fun e e' => Edge.source e' = Edge.source e /\
                       Edge.target e' = Edge.target e /\
                       Edge.label e' = Edge.label e) l1 l3.
Proof.
  intros H. revert l3.
  induction H as [|a b l1 l2 (A1 & A2 & A3) _ IH]; intros l3 H23;
    inversion H23 as [|? c ? l3' (B1 & B2 & B3) H23']; subst; constructor.
  - repeat split; congruence.
  - now apply IH.
Qed.

Lemma grows_refl (s : t) : grows s s.
Proof.
  split; [exists []; now rewrite app_nil_r|].
  split; [intros k n Hk; exists n; split; [exact Hk | apply same_identity_refl]|].
  exists (edges s), []. split; [now rewrite app_nil_r|].
  apply Forall2_same_ends_refl.
Qed.

Lemma grows_trans (s1 s2 s3 : t) : grows s1 s2 -> grows s2 s3 -> grows s1 s3.
Proof.
  intros ([a Ka] & N1 & es1 & ex1 & E1 & F1) ([b Kb] & N2 & es2 & ex2 & E2 & F2).
  split; [|split].
  - exists (a ++ b)%list. now rewrite Kb, Ka, app_assoc.
  - intros k n Hk. destruct (N1 k n Hk) as (n' & Hk' & I1).
    destruct (N2 k n' Hk') as (n'' & Hk'' & I2).
    exists n''. split; [exact Hk''|]. now apply (same_identity_trans n n').
  - rewrite E1 in F2. apply Forall2_app_inv_l in F2.
    destruct F2 as (l1 & l2 & Fa & Fb & ->).
    exists l1, (l2 ++ ex2)%list. split; [now rewrite E2, app_assoc|].
    now apply (Forall2_same_ends_trans _ es1).
Qed.

Lemma grows_update (s s' : t) (r : string) (n n' : Node.t) :
  dict_get (nodes s) r = Some n -> same_identity n n' ->
  nodes s' = dict_set (nodes s) r n' ->
  Forall2 (fun e e' => Edge.source e' = Edge.source e /\
                       Edge.target e' = Edge.target e /\
                       Edge.label e' = Edge.label e) (edges s) (edges s') ->
  grows s s'.
Proof.
  intros Hr Hid Hn He. split; [|split].
  - exists []. now rewrite Hn, (keys_set_present _ _ _ _ Hr), app_nil_r.
  - intros k m Hk. rewrite Hn. destruct (String.eqb_spec k r) as [->|Hne].
    + exists n'. split; [apply dict_get_set_same|]. congruence.
    + exists m. split; [now rewrite dict_get_set_other|].
      apply same_identity_refl.
  - exists (edges s'), []. split; [now rewrite app_nil_r | exact He].
Qed.

Lemma change_grows (ev : event) (s s' : t) : change ev s s' -> grows s s'.
Proof.
  intros [Hn He Hc|r n n' Hr Hsty Hn He _|sh x y _ _ _ Hn He _
         |sn tn e px py _ _ _ _ _ _ Hn He _
         |d n px py _ _ Hd Hn Hred _ _].
  - unfold grows. rewrite Hn, He. apply grows_refl.
  - apply (grows_update s s' r n n' Hr); auto.
    + destruct Hsty as [(typed & _ & ->)|[(ed & _ & _ & ->)|(c & _ & ->)]];
        repeat split.
    + rewrite He. apply Forall2_same_ends_refl.
  - split; [|split].
    + exists [id_at (node_counter s)]. rewrite Hn. unfold keys.
      now rewrite map_app.
    + intros k m Hk. exists m. rewrite Hn.
      split; [now apply dict_get_app_some | apply same_identity_refl].
    + exists (edges s), []. rewrite He, app_nil_r.
      split; [reflexivity | apply Forall2_same_ends_refl].
  - split; [|split].
    + exists []. now rewrite Hn, app_nil_r.
    + intros k m Hk. exists m. rewrite Hn.
      split; [exact Hk | apply same_identity_refl].
    + exists (edges s), [e]. split; [exact He | apply Forall2_same_ends_refl].
  - apply (grows_update s s' d n
             (Node.update_position n (px - drag_offset_x s)
                (py - drag_offset_y s)) Hd);
      [repeat split | exact Hn |].
    eapply Forall2_impl; [|exact Hred].
    intros e e' (H1 & H2 & H3 & _). auto.
Qed.

(** X10: nothing is ever removed or renamed.  Later in a run the store
    has the same keys in the same order, followed by the new ones; every
    node is still there under its key with the same id, shape, width and
    height; and the edges are the same ones, with the same ends and
    labels, followed by the new ones. *)
Theorem model_only_grows (evs more : list event) :
  grows (run evs) (run (evs ++ more)).
Proof.
  unfold run at 2. rewrite fold_left_app. fold (run evs).
  assert (H : Inv (run evs)) by (apply run_inv; now exists evs).
  revert H. generalize (run evs) as s0. intros s0 H0.
  assert (G : forall s1, Inv s1 -> grows s0 s1 ->
                         grows s0 (fold_left step more s1)).
  { induction more as [|ev more IH]; intros s1 H1 Hg; simpl; [exact Hg|].
    apply IH; [now apply step_inv|].
    apply (grows_trans s0 s1); [exact Hg|].
    apply (change_grows ev). now apply step_change_inv. }
  apply G; [exact H0 | apply grows_refl].
Qed.

(** X11: what one callback may do to the model.  In a state the editor
    can reach, an event leaves the nodes and the edges as they are, or
    rewrites the text or the fill of one node (a key, a commit, a palette
    button), or appends one node (a menu command), or appends one edge
    between two different nodes (a click in connection mode), or moves
    the dragged node and redraws its edges (a pointer move). *)
Theorem every_event_is_one_change (s : t) (ev : event) :
  reachable s -> change ev s (step s ev).
Proof. intros Hr. apply step_change_inv. now apply run_inv. Qed.

Lemma every_event_is_one_change_witness :
  change (Motion 30 40) dragging_A (step dragging_A (Motion 30 40)).
Proof.
  apply (every_event_is_one_change dragging_A (Motion 30 40)).
  now exists [RightClick 10 10; CreateNodeAt "rectangle";
              RightClick 200 10; CreateNodeAt "diamond";
              DoubleClick 20 20; LeftClick 210 20; LeftClick 20 20].
Defined.

(** ** Further properties: the callbacks never raise *)

Lemma frame_bind {A B F : Type} (f : t -> F) (c : M A) (k : A -> M B) :
  (forall s, f (snd (c s)) = f s) ->
  (forall a s, f (snd (k a s)) = f s) ->
  forall s, f (snd (bind c k s)) = f s.
Proof.
  intros Hc Hk s. unfold bind. specialize (Hc s).
  destruct (c s) as [[a|e] s1]; simpl in *; [rewrite Hk|]; exact Hc.
Qed.

Ltac frame :=
  repeat first
    [ apply frame_bind; [|intros ?]
    | match goal with
      | |- forall s, _ (snd ((match ?x with _ => _ end) s)) = _ => destruct x
      | |- forall s, _ (snd ((if ?b then _ else _) s)) = _ => destruct b
      end
    | intros ?; reflexivity ].

(** Only a right click writes the position of the menu. *)
Lemma handler_keeps_menu (ev : event) :
  (forall x y, ev <> RightClick x y) ->
  forall s,
    (context_menu_x (snd (handler ev s)), context_menu_y (snd (handler ev s)))
    = (context_menu_x s, context_menu_y s).
Proof.
  intros Hev.
  pose (f := fun s : t => (context_menu_x s, context_menu_y s)).
  change (forall s, f (snd (handler ev s)) = f s).
  destruct ev; simpl handler;
    try (exfalso; eapply Hev; reflexivity);
    unfold create_node_at, get_new_node_id, on_left_click, on_double_click,
      on_drag, on_release, on_key_release, finish_editing, change_color,
      get_mermaid_code, start_editing_node, stop_editing, update_node, deref,
      remove_text_editor, show_palette_panel, hide_palette_panel;
    frame.
  intros s0. destruct (redraw_edges (nodes s0) s (edges s0)). reflexivity.
Qed.

Lemma get_node_at_total (ns : list Node.t) (x y : Z) :
  Forall sized ns -> exists r, get_node_at ns x y = Return r.
Proof.
  induction 1 as [|n ns Hn _ (r & IH)]; simpl; [now exists None|].
  destruct (contains_point_sized n x y Hn) as ([|] & -> & _); simpl; eauto.
Qed.

Lemma Forall_values_set {V : Type} (P : V -> Prop) (d : dict V)
    (k : string) (v : V) :
  Forall P (values d) -> P v -> Forall P (values (dict_set d k v)).
Proof.
  unfold values. intros Hd Hv. induction d as [|[k0 v0] d IH]; simpl.
  - now constructor.
  - inversion Hd; subst.
    destruct (String.eqb k0 k); simpl; constructor; auto.
Qed.

Lemma Node_init_sized (i : string) (x y : Z) (txt shape f : string) :
  shape = "rectangle" \/ shape = "diamond" -> sized (Node.init i x y txt shape f).
Proof. intros [-> | ->]; eexists _, _; split; reflexivity. Qed.

Lemma step_sized (s : t) (ev : event) :
  Inv s -> Forall sized (values (nodes s)) ->
  (forall shape, ev = CreateNodeAt shape ->
                 shape = "rectangle" \/ shape = "diamond") ->
  Forall sized (values (nodes (step s ev))).
Proof.
  intros H Hs Hev.
  assert (Hin : forall r n, dict_get (nodes s) r = Some n -> sized n).
  { intros r n Hr. rewrite Forall_forall in Hs. apply Hs.
    apply dict_get_some_in in Hr. unfold values.
    now apply (in_map snd) in Hr. }
  destruct (step_change_inv s ev H)
    as [Hn _ _|r n n' Hr Hsty Hn _ _|sh x y E _ _ Hn _ _
       |sn tn e px py _ _ _ _ _ _ Hn _ _|d n px py _ _ Hd Hn _ _ _];
    rewrite Hn; auto.
  - apply Forall_values_set; [exact Hs|].
    pose proof (Hin r n Hr) as (w & h & Hw & Hh).
    destruct Hsty as [(typed & _ & ->)|[(ed & _ & _ & ->)|(c & _ & ->)]];
      now exists w, h.
  - unfold values. rewrite map_app. apply Forall_app. split; [exact Hs|].
    constructor; [|constructor]. simpl. now apply Node_init_sized, Hev.
  - apply Forall_values_set; [exact Hs|].
    pose proof (Hin d n Hd) as (w & h & Hw & Hh). now exists w, h.
Qed.

(** A callback returns when every node has its dimensions and, for a
    menu command, the menu was placed. *)
Lemma handler_returns (s : t) (ev : event) :
  Inv s -> Forall sized (values (nodes s)) ->
  (forall shape, ev = CreateNodeAt shape ->
     (shape = "rectangle" \/ shape = "diamond") /\
     exists x y, context_menu_x s = Some x /\ context_menu_y s = Some y) ->
  fst (handler ev s) = Return tt.
Proof.
  intros H Hs Hev. pose proof H as H0. split_inv H0.
  destruct ev; simpl handler.
  - reflexivity.
  - destruct (Hev shape eq_refl) as (Hsh & x & y & Hx & Hy).
    rewrite (create_node_at_eq shape s x y Hx Hy).
    eapply start_editing_node_returns.
    + simpl. apply dict_get_set_same.
    + now apply Node_init_sized.
  - pose proof (on_left_click_other x y s) as Ho.
    destruct (get_node_at_total (values (nodes s)) x y Hs) as [r Hr].
    rewrite Hr in Ho.
    destruct (arrow_source s) as [src|] eqn:Ea; destruct r as [n|].
    + destruct (String.eqb_spec (Node.id n) src) as [Heq|Hne].
      * now rewrite (Ho Heq).
      * destruct (on_left_click_connect s src n x y H Ea Hr Hne)
          as (sn & e & _ & _ & _ & _ & _ & _ & ->).
        reflexivity.
    + now rewrite Ho.
    + destruct (on_left_click_select s n x y H Ea Hr) as (s1 & _ & ->).
      reflexivity.
    + rewrite Ho. now rewrite stop_editing_eq.
  - rewrite on_double_click_eq.
    destruct (get_node_at_total (values (nodes s)) x y Hs) as [[n|] ->];
      reflexivity.
  - destruct (dragging_node s) as [d|] eqn:Hd.
    + destruct (on_drag_run x y s d H Hd)
        as (n & es' & s1 & _ & _ & _ & _ & _ & _ & _ & _ & _ & _ & _ & ->).
      reflexivity.
    + unfold on_drag, bind, get. now rewrite Hd.
  - reflexivity.
  - rewrite on_key_release_eq.
    destruct (text_editor s) as [ed|] eqn:Ee; [|reflexivity].
    cbv zeta. destruct (Hentry ed eq_refl) as [n ->]. reflexivity.
  - rewrite finish_editing_eq.
    destruct (current_edit_node s) as [c|] eqn:Ec;
      [destruct (text_editor s) as [ed|] eqn:Ee|];
      try (now rewrite stop_editing_eq).
    destruct (Hcur c eq_refl) as [n ->]. now rewrite stop_editing_eq.
  - rewrite change_color_eq.
    destruct (current_edit_node s) as [c|] eqn:Ec; [|reflexivity].
    destruct (Hcur c eq_refl) as [n ->]. reflexivity.
  - destruct (mermaid_lines_eq s) as (g & _ & Hl).
    unfold bind. now rewrite (get_mermaid_code_eq _ _ Hl).
Qed.

Lemma ui_runs_clean (evs : list event) :
  forall (placed : bool) (s : t),
    Inv s -> Forall sized (values (nodes s)) ->
    (placed = true ->
     exists x y, context_menu_x s = Some x /\ context_menu_y s = Some y) ->
    ui_trace placed evs = true -> runs_clean s evs.
Proof.
  induction evs as [|ev evs IH]; intros placed s H Hs Hm Ht; simpl; [exact I|].
  assert (Hshape : forall shape, ev = CreateNodeAt shape ->
            (shape = "rectangle" \/ shape = "diamond") /\
            exists x y, context_menu_x s = Some x /\ context_menu_y s = Some y).
  { intros shape ->. simpl in Ht.
    apply andb_prop in Ht. destruct Ht as [Ht _].
    apply andb_prop in Ht. destruct Ht as [Hp Hsh].
    split; [|now apply Hm].
    apply orb_prop in Hsh. destruct Hsh as [E|E]; apply String.eqb_eq in E; auto. }
  split; [now apply handler_returns|].
  assert (Hs' : Forall sized (values (nodes (step s ev))))
    by (apply step_sized; auto; intros sh E; now apply Hshape).
  pose proof (step_inv s ev H) as H'.
  assert (Hkeep : (forall x y, ev <> RightClick x y) ->
            (exists x y, context_menu_x s = Some x /\ context_menu_y s = Some y) ->
            exists x y, context_menu_x (step s ev) = Some x /\
                        context_menu_y (step s ev) = Some y).
  { intros Hne (x & y & Hx & Hy).
    pose proof (handler_keeps_menu ev Hne s) as E. injection E as E1 E2.
    exists x, y. unfold step. now rewrite E1, E2. }
  destruct ev; simpl in Ht;
    try (apply (IH placed); auto;
         try (intros Hp; apply Hkeep; [discriminate | now apply Hm]); fail).
  - apply (IH true); auto. intros _. now exists x, y.
  - apply andb_prop in Ht. destruct Ht as [Ht1 Ht2].
    apply (IH placed); auto. intros Hp. apply Hkeep; [discriminate | now apply Hm].
Qed.

(** X12: in a run the window can produce (the menu commands create a
    rectangle or a diamond, after a right click has placed the menu), no
    callback ever raises an exception. *)
Theorem ui_runs_never_raise (evs : list event) :
  ui_trace false evs = true -> runs_clean init evs.
Proof.
  apply ui_runs_clean.
  - apply init_inv.
  - constructor.
  - discriminate.
Qed.

Lemma ui_runs_never_raise_witness :
  runs_clean init
    [RightClick 10 10; CreateNodeAt "rectangle";
     RightClick 200 10; CreateNodeAt "diamond";
     DoubleClick 20 20; LeftClick 210 20; LeftClick 20 20; Motion 30 40;
     ButtonRelease; KeyRelease "Start"; PaletteButton "#FFA500";
     ReturnOrFocusOut; CodeButton].
Proof. apply ui_runs_never_raise. reflexivity. Defined.

(** ** Further properties: the class lines *)

Lemma existsb_eqb_In (c : string) (l : list string) :
  existsb (String.eqb c) l = true <-> In c l.
Proof.
  rewrite existsb_exists. split.
  - intros (x & Hx & E). apply String.eqb_eq in E. now subst.
  - intros H. exists c. split; [exact H | apply String.eqb_refl].
Qed.

Lemma first_seen_NoDup (l seen : list string) :
  NoDup seen -> NoDup (seen ++ first_seen seen l).
Proof.
  revert seen. induction l as [|c l IH]; intros seen Hs; simpl.
  - now rewrite app_nil_r.
  - destruct (existsb (String.eqb c) seen) eqn:E; [now apply IH|].
    assert (Hc : ~ In c seen).
    { intros Hin. apply existsb_eqb_In in Hin. congruence. }
    assert (Hs' : NoDup (seen ++ [c])).
    { apply NoDup_app; [exact Hs | repeat constructor; auto |].
      intros x Hx [<-|[]]. contradiction. }
    specialize (IH _ Hs'). now rewrite <- app_assoc in IH.
Qed.

Lemma first_seen_In (l seen : list string) (c : string) :
  In c (seen ++ first_seen seen l) <-> In c (seen ++ l).
Proof.
  revert seen. induction l as [|a l IH]; intros seen; simpl; [tauto|].
  destruct (existsb (String.eqb a) seen) eqn:E.
  - rewrite IH, !in_app_iff. simpl. apply existsb_eqb_In in E.
    split; [tauto|]. intros [H|[<-|H]]; tauto.
  - specialize (IH (seen ++ [a])%list). rewrite <- !app_assoc in IH. exact IH.
Qed.

Lemma color_table_keys_NoDup (ns : list Node.t) : NoDup (keys (color_table ns)).
Proof.
  rewrite (proj2 (color_table_spec ns)).
  apply (first_seen_NoDup _ []). constructor.
Qed.

(** The five predefined names are distinct, and none starts like a
    generated name. *)
Lemma predefined_names (c1 c2 : string) (p1 p2 : string * string) :
  dict_get predefined c1 = Some p1 -> dict_get predefined c2 = Some p2 ->
  fst p1 = fst p2 -> c1 = c2.
Proof.
  intros H1 H2. apply dict_get_some_in in H1, H2. simpl in H1, H2.
  repeat (destruct H1 as [H1|H1]; [injection H1 as <- <-|]); try contradiction;
    repeat (destruct H2 as [H2|H2]; [injection H2 as <- <-|]);
    try contradiction; simpl; intros E; (reflexivity || discriminate E).
Qed.

Lemma predefined_not_generated (c : string) (p : string * string) (k : nat) :
  dict_get predefined c = Some p -> fst p <> "color" ++ str k.
Proof.
  intros H. apply dict_get_some_in in H. simpl in H.
  repeat (destruct H as [H|H]; [injection H as <- <-; simpl; discriminate|]).
  contradiction.
Qed.

Lemma generated_names_inj (i j : nat) :
  "color" ++ str i = "color" ++ str j -> i = j.
Proof. simpl. intros [= E]. now apply str_inj. Qed.

Lemma color_table_values_NoDup (ns : list Node.t) :
  NoDup (values (color_table ns)).
Proof.
  destruct (color_table_spec ns) as [Hnamed _].
  pose proof (color_table_keys_NoDup ns) as Hk.
  set (cc := color_table ns) in *.
  apply NoDup_nth_error. intros i j Hi E.
  unfold values in *. rewrite length_map in Hi.
  rewrite !nth_error_map in E.
  destruct (nth_error cc i) as [[ci ni]|] eqn:Ei;
    [|apply nth_error_None in Ei; lia].
  destruct (nth_error cc j) as [[cj nj]|] eqn:Ej; [|discriminate E].
  simpl in E. injection E as E.
  pose proof (Hnamed _ _ _ Ei) as Hi'. pose proof (Hnamed _ _ _ Ej) as Hj'.
  unfold class_at in Hi', Hj'.
  assert (Hkeys : ci = cj -> i = j).
  { intros Hc. apply (proj1 (NoDup_nth_error (keys cc)) Hk).
    - unfold keys. rewrite length_map. apply nth_error_Some. congruence.
    - unfold keys. rewrite !nth_error_map, Ei, Ej. simpl. now rewrite Hc. }
  destruct (dict_get predefined ci) as [pi|] eqn:Pi;
    destruct (dict_get predefined cj) as [pj|] eqn:Pj.
  - apply Hkeys. apply (predefined_names _ _ _ _ Pi Pj). congruence.
  - exfalso. apply (predefined_not_generated _ _ (j + 1) Pi). congruence.
  - exfalso. apply (predefined_not_generated _ _ (i + 1) Pj). congruence.
  - assert (Hij : (i + 1 = j + 1)%nat) by (apply generated_names_inj; congruence).
    lia.
Qed.

(** X13: the table gives every colour that occurs (in lower case) one
    class, and no two colours the same class name: the [classDef] lines
    are as many as the distinct colours and their names are pairwise
    distinct. *)
Theorem class_names_are_distinct (ns : list Node.t) :
  NoDup (keys (color_table ns)) /\
  NoDup (values (color_table ns)) /\
  (forall c, In c (keys (color_table ns)) <-> In c (map color_key ns)) /\
  (forall n, In n ns ->
     exists name, dict_get (color_table ns) (color_key n) = Some name).
Proof.
  split; [apply color_table_keys_NoDup|].
  split; [apply color_table_values_NoDup|].
  split.
  - intros c. rewrite (proj2 (color_table_spec ns)).
    exact (first_seen_In (map color_key ns) [] c).
  - intros n Hn. pose proof (fold_assign_covers ns [] n Hn) as H.
    fold (color_table ns) in H.
    destruct (dict_get (color_table ns) (color_key n)) as [name|];
      [now exists name | contradiction].
Qed.

Lemma add_to_group_eq (cc : dict string) (g : dict (list string))
    (n : Node.t) (name : string) :
  dict_get cc (color_key n) = Some name ->
  add_to_group cc g n =
  Return (dict_set g name
            (match dict_get g name with
             | Some l => (l ++ [Node.id n])%list
             | None => [Node.id n]
             end)).
Proof.
  intros H. unfold add_to_group. fold (color_key n). rewrite H.
  now destruct (dict_get g name).
Qed.

Lemma keys_dict_set {V : Type} (d : dict V) (k : string) (v : V) :
  keys (dict_set d k v) =
  if existsb (String.eqb k) (keys d) then keys d else (keys d ++ [k])%list.
Proof.
  rewrite dict_mem_existsb. unfold dict_mem.
  destruct (dict_get d k) as [w|] eqn:E.
  - now apply (keys_set_present _ _ _ w).
  - rewrite (dict_set_fresh _ _ _ E). unfold keys. now rewrite map_app.
Qed.

Lemma ids_of_class_cons (cc : dict string) (n : Node.t) (ns : list Node.t)
    (name : string) :
  ids_of_class cc (n :: ns) name =
  if String.eqb (class_of cc n) name
  then Node.id n :: ids_of_class cc ns name
  else ids_of_class cc ns name.
Proof.
  unfold ids_of_class. simpl. now destruct (String.eqb (class_of cc n) name).
Qed.

(** The loop that fills [groups]: the classes come in the order in which
    the nodes first show them, each with the ids of its nodes. *)
Lemma groups_loop_spec (cc : dict string) (ns : list Node.t) :
  (forall n, In n ns -> dict_get cc (color_key n) <> None) ->
  forall g : dict (list string),
  exists g',
    for_each (add_to_group cc) ns g = Return g' /\
    keys g' = (keys g ++ first_seen (keys g) (map (class_of cc) ns))%list /\
    forall name,
      dict_get g' name =
      match dict_get g name with
      | Some l => Some (l ++ ids_of_class cc ns name)%list
      | None =>
          if existsb (String.eqb name) (map (class_of cc) ns)
          then Some (ids_of_class cc ns name) else None
      end.
Proof.
  induction ns as [|n ns IH]; intros Hcov g.
  - exists g. split; [reflexivity|]. split; [simpl; now rewrite app_nil_r|].
    intros name. simpl. unfold ids_of_class. simpl.
    destruct (dict_get g name); [now rewrite app_nil_r | reflexivity].
  - destruct (dict_get cc (color_key n)) as [cn|] eqn:Ec;
      [|exfalso; apply (Hcov n); [now left | exact Ec]].
    assert (Hcn : class_of cc n = cn) by (unfold class_of; now rewrite Ec).
    set (g1 := dict_set g cn
                 (match dict_get g cn with
                  | Some l => (l ++ [Node.id n])%list
                  | None => [Node.id n]
                  end)).
    destruct (IH (fun m Hm => Hcov m (or_intror Hm)) g1) as (g' & Hrun & Hkeys & Hget).
    exists g'. split; [|split].
    + simpl. rewrite (add_to_group_eq cc g n cn Ec). exact Hrun.
    + rewrite Hkeys. unfold g1. rewrite keys_dict_set. simpl. rewrite Hcn.
      destruct (existsb (String.eqb cn) (keys g)); [reflexivity|].
      now rewrite <- app_assoc.
    + intros name. rewrite Hget. rewrite ids_of_class_cons, Hcn. simpl.
      rewrite Hcn. unfold g1.
      destruct (String.eqb_spec cn name) as [->|Hne].
      * rewrite dict_get_set_same, String.eqb_refl. simpl.
        destruct (dict_get g name) as [l|]; [|reflexivity].
        now rewrite <- app_assoc.
      * rewrite dict_get_set_other by congruence.
        assert (E : String.eqb name cn = false) by (apply String.eqb_neq; congruence).
        rewrite E. reflexivity.
Qed.

Lemma dict_of_lookups {V : Type} (d : dict V) (f : string -> V) :
  NoDup (keys d) ->
  (forall k, In k (keys d) -> dict_get d k = Some (f k)) ->
  d = map (fun k => (k, f k)) (keys d).
Proof.
  unfold keys. induction d as [|[k v] d IH]; simpl; intros Hnd Hget;
    [reflexivity|].
  apply NoDup_cons_iff in Hnd. destruct Hnd as [Hnotin Hnd']. simpl in Hnotin.
  pose proof (Hget k (or_introl eq_refl)) as Hk.
  rewrite String.eqb_refl in Hk. injection Hk as ->.
  f_equal. apply IH; [exact Hnd'|].
  intros k' Hk'. specialize (Hget k' (or_intror Hk')).
  destruct (String.eqb_spec k k') as [->|Hne]; [contradiction | exact Hget].
Qed.

Lemma dict_get_inj {V : Type} (d : dict V) (a b : string) (v : V) :
  NoDup (values d) ->
  dict_get d a = Some v -> dict_get d b = Some v -> a = b.
Proof.
  unfold values. induction d as [|[k w] d IH]; simpl; [discriminate|].
  intros Hnd Ha Hb. apply NoDup_cons_iff in Hnd.
  destruct Hnd as [Hnotin Hnd']. simpl in Hnotin.
  assert (Hin : forall q, dict_get d q = Some w -> False).
  { intros q Hq. apply Hnotin. apply dict_get_some_in in Hq.
    now apply (in_map snd) in Hq. }
  destruct (String.eqb_spec k a) as [Eka|Hka];
    destruct (String.eqb_spec k b) as [Ekb|Hkb].
  - congruence.
  - injection Ha as <-. exfalso. now apply (Hin b).
  - injection Hb as <-. exfalso. now apply (Hin a).
  - now apply IH.
Qed.

Lemma map_lookup_keys {V : Type} (d : dict V) (dflt : V) :
  NoDup (keys d) ->
  map (fun k => match dict_get d k with Some v => v | None => dflt end) (keys d)
  = values d.
Proof.
  unfold keys, values. induction d as [|[k v] d IH]; simpl; intros Hnd;
    [reflexivity|].
  apply NoDup_cons_iff in Hnd. destruct Hnd as [Hnotin Hnd']. simpl in Hnotin.
  rewrite String.eqb_refl. f_equal. rewrite <- (IH Hnd').
  apply map_ext_in. intros k' Hk'.
  destruct (String.eqb_spec k k') as [->|Hne]; [contradiction | reflexivity].
Qed.

Lemma first_seen_map (F : string -> string) (l seen : list string) :
  (forall a b, In a (seen ++ l) -> In b (seen ++ l) -> F a = F b -> a = b) ->
  first_seen (map F seen) (map F l) = map F (first_seen seen l).
Proof.
  revert seen. induction l as [|c l IH]; intros seen Hinj; simpl; [reflexivity|].
  assert (E : existsb (String.eqb (F c)) (map F seen)
              = existsb (String.eqb c) seen).
  { apply eq_true_iff_eq. rewrite !existsb_eqb_In, in_map_iff. split.
    - intros (x & Hx & Hin). assert (x = c); [|now subst].
      apply Hinj;
        [apply in_or_app; now left | apply in_or_app; right; now left
        |exact Hx].
    - intros Hin. now exists c. }
  rewrite E. destruct (existsb (String.eqb c) seen).
  - apply IH. intros a b Ha Hb. apply Hinj; rewrite in_app_iff in *; simpl; tauto.
  - simpl. f_equal. rewrite <- IH.
    + now rewrite map_app.
    + intros a b Ha Hb. apply Hinj; rewrite <- app_assoc in *; assumption.
Qed.

(** The groups are the table's classes, each with the ids of the nodes of
    its colour. *)
Lemma groups_are_groups_of (ns : list Node.t) :
  for_each (add_to_group (color_table ns)) ns [] = Return (groups_of ns).
Proof.
  set (cc := color_table ns).
  assert (Hcov : forall n, In n ns -> dict_get cc (color_key n) <> None)
    by (intros n Hn; now apply fold_assign_covers).
  pose proof (color_table_keys_NoDup ns) as Hk.
  pose proof (color_table_values_NoDup ns) as Hv.
  fold cc in Hk, Hv.
  destruct (groups_loop_spec cc ns Hcov []) as (g & Hrun & Hkeys & Hget).
  rewrite Hrun. f_equal. simpl in Hkeys, Hget.
  set (F := fun c => match dict_get cc c with Some v => v | None => "" end).
  assert (Hclass : map (class_of cc) ns = map F (map color_key ns))
    by (rewrite map_map; reflexivity).
  assert (Hin_keys : forall c, In c (map color_key ns) ->
                               exists v, dict_get cc c = Some v).
  { intros c Hc. apply in_map_iff in Hc. destruct Hc as (n & <- & Hn).
    specialize (Hcov n Hn). destruct (dict_get cc (color_key n)); [eauto|congruence]. }
  assert (HFinj : forall a b, In a (map color_key ns) -> In b (map color_key ns) ->
                              F a = F b -> a = b).
  { intros a b Ha Hb E. destruct (Hin_keys a Ha) as [va Hva].
    destruct (Hin_keys b Hb) as [vb Hvb]. unfold F in E. rewrite Hva, Hvb in E.
    subst vb. exact (dict_get_inj cc a b va Hv Hva Hvb). }
  assert (Hgk : keys g = values cc).
  { rewrite Hkeys, Hclass.
    pose proof (first_seen_map F (map color_key ns) [] HFinj) as E.
    simpl map at 1 in E. rewrite E.
    rewrite <- (proj2 (color_table_spec ns)). fold cc.
    apply map_lookup_keys, Hk. }
  assert (Hgnd : NoDup (keys g)) by (rewrite Hgk; exact Hv).
  rewrite (dict_of_lookups g (ids_of_class cc ns) Hgnd).
  - rewrite Hgk. unfold groups_of, values. fold cc. rewrite map_map.
    apply map_ext_in. intros [c nm] Hin. simpl. f_equal.
    unfold ids_of_class, ids_of_color. f_equal.
    apply filter_ext_in. intros n Hn.
    pose proof (dict_get_in cc c nm Hk Hin) as Hc.
    destruct (Hin_keys (color_key n) (in_map color_key ns n Hn)) as [v Hvn].
    unfold class_of. rewrite Hvn.
    destruct (String.eqb_spec (color_key n) c) as [E|E].
    + rewrite E in Hvn. rewrite Hc in Hvn. injection Hvn as <-.
      apply String.eqb_refl.
    + apply String.eqb_neq. intros ->. apply E.
      exact (dict_get_inj cc _ _ nm Hv Hvn Hc).
  - intros k Hkin. rewrite Hget.
    assert (Hex : existsb (String.eqb k) (map (class_of cc) ns) = true).
    { apply existsb_eqb_In.
      rewrite Hkeys in Hkin.
      now apply (first_seen_In (map (class_of cc) ns) [] k) in Hkin. }
    now rewrite Hex.
Qed.

(** X14: the [class] lines.  After the [classDef] lines the text has one
    [class] line per colour of the table, in the order of the table; the
    line of a colour lists the ids of the nodes of that colour (compared
    in lower case), in the order of the store, joined by commas, and ends
    with the class name of the colour. *)
Theorem class_lines_list_ids_by_color (s : t) :
  mermaid_lines s =
  Return (["```mermaid"; "graph TD;"]
          ++ map node_line (values (nodes s))
          ++ map edge_line (edges s)
          ++ map classdef_line (color_table (values (nodes s)))
          ++ map (fun item : string * string =>
                    ("    class "
                     ++ String.concat ","
                          (ids_of_color (values (nodes s)) (fst item))
                     ++ " " ++ snd item ++ ";")%string)
                 (color_table (values (nodes s)))
          ++ ["```"])%list.
Proof.
  destruct (mermaid_lines_eq s) as (g & Hg & ->).
  rewrite groups_are_groups_of in Hg. injection Hg as <-.
  unfold groups_of. rewrite map_map. reflexivity.
Qed.

(** ** Further properties: what the text does not depend on *)

Lemma node_line_view (n m : Node.t) :
  node_view n = node_view m -> node_line n = node_line m.
Proof. unfold node_view, node_line. now intros [= -> -> -> _]. Qed.

Lemma edge_line_view (e f : Edge.t) :
  edge_view e = edge_view f -> edge_line e = edge_line f.
Proof. unfold edge_view, edge_line. now intros [= -> -> ->]. Qed.

Lemma map_view_ext {A B C : Type} (view : A -> B) (f : A -> C) (l1 l2 : list A) :
  (forall a b, view a = view b -> f a = f b) ->
  map view l1 = map view l2 -> map f l1 = map f l2.
Proof.
  intros Hf. revert l2. induction l1 as [|a l1 IH]; intros [|b l2];
    simpl; try discriminate; [reflexivity|].
  intros [= Hab Hl]. f_equal; auto.
Qed.

Lemma fold_assign_view (ns1 ns2 : list Node.t) (cc : dict string) :
  map node_view ns1 = map node_view ns2 ->
  fold_left assign_class ns1 cc = fold_left assign_class ns2 cc.
Proof.
  revert ns2 cc. induction ns1 as [|a l1 IH]; intros [|b l2] cc;
    simpl; try discriminate; [reflexivity|].
  intros [= _ _ _ Hf Hl].
  assert (E : assign_class cc a = assign_class cc b)
    by (unfold assign_class; now rewrite Hf).
  rewrite E. now apply IH.
Qed.

Lemma for_each_groups_view (cc : dict string) (ns1 ns2 : list Node.t)
    (g : dict (list string)) :
  map node_view ns1 = map node_view ns2 ->
  for_each (add_to_group cc) ns1 g = for_each (add_to_group cc) ns2 g.
Proof.
  revert ns2 g. induction ns1 as [|a l1 IH]; intros [|b l2] g;
    simpl; try discriminate; [reflexivity|].
  intros [= Hi _ _ Hf Hl].
  assert (E : add_to_group cc g a = add_to_group cc g b)
    by (unfold add_to_group; now rewrite Hf, Hi).
  rewrite E. destruct (add_to_group cc g b); simpl; [now apply IH | reflexivity].
Qed.

(** The text is a function of the ids, texts, shapes and fills of the
    nodes and of the ends and labels of the edges. *)
Lemma mermaid_lines_view (s1 s2 : t) :
  map node_view (values (nodes s1)) = map node_view (values (nodes s2)) ->
  map edge_view (edges s1) = map edge_view (edges s2) ->
  mermaid_lines s1 = mermaid_lines s2.
Proof.
  intros Hn He. unfold mermaid_lines. rewrite !fold_left_snoc.
  rewrite (map_view_ext node_view node_line _ _ node_line_view Hn).
  rewrite (map_view_ext edge_view edge_line _ _ edge_line_view He).
  rewrite (fold_assign_view _ _ [] Hn).
  rewrite (for_each_groups_view _ _ _ [] Hn). reflexivity.
Qed.

Lemma values_dict_set_view {B : Type} (view : Node.t -> B) (d : dict Node.t)
    (k : string) (n n' : Node.t) :
  dict_get d k = Some n -> view n' = view n ->
  map view (values (dict_set d k n')) = map view (values d).
Proof.
  unfold values. induction d as [|[k0 v0] d IH]; simpl; [discriminate|].
  destruct (String.eqb k0 k); simpl.
  - intros [= ->] E. now rewrite E.
  - intros Hd E. f_equal. now apply IH.
Qed.

(** X15: the text does not depend on where the nodes are nor on the
    state of the interaction.  In a state the editor can reach, a right
    click, a double click, a pointer move, a button release and the code
    buttons leave the text exactly as it was. *)
Theorem moves_do_not_change_the_text (s : t) (ev : event) :
  reachable s ->
  (forall shape, ev <> CreateNodeAt shape) ->
  (forall x y, ev <> LeftClick x y) ->
  (forall typed, ev <> KeyRelease typed) ->
  ev <> ReturnOrFocusOut ->
  (forall color, ev <> PaletteButton color) ->
  get_mermaid_code (step s ev) = (fst (get_mermaid_code s), step s ev).
Proof.
  intros Hr H1 H2 H3 H4 H5. apply run_inv in Hr.
  assert (E : mermaid_lines (step s ev) = mermaid_lines s).
  { destruct (step_change_inv s ev Hr)
      as [Hn He _|r n n' _ Hsty _ _ _|sh x y Hev _ _ _ _ _
         |sn tn e px py Hev _ _ _ _ _ _ _ _|d n px py _ _ Hd Hn Hred _ _].
    - unfold mermaid_lines. now rewrite Hn, He.
    - destruct Hsty as [(typed & Hev & _)|[(ed & Hev & _)|(c & Hev & _)]];
        [now apply H3 in Hev | now apply H4 in Hev | now apply H5 in Hev].
    - now apply H1 in Hev.
    - now apply H2 in Hev.
    - apply mermaid_lines_view.
      + rewrite Hn. now apply (values_dict_set_view node_view _ _ n).
      + clear - Hred. induction Hred as [|e e' es es' (A & B & C & _) _ IH];
          simpl; [reflexivity|].
        f_equal; [|exact IH]. unfold edge_view. now rewrite A, B, C. }
  destruct (mermaid_lines_eq s) as (g & _ & Hl).
  rewrite (get_mermaid_code_eq s _ Hl). simpl.
  rewrite <- E in Hl. now rewrite (get_mermaid_code_eq _ _ Hl).
Qed.

Lemma moves_do_not_change_the_text_witness :
  get_mermaid_code (step dragging_A (Motion 300 400)) =
  (fst (get_mermaid_code dragging_A), step dragging_A (Motion 300 400)).
Proof.
  apply (moves_do_not_change_the_text dragging_A (Motion 300 400));
    try discriminate.
  now exists [RightClick 10 10; CreateNodeAt "rectangle";
              RightClick 200 10; CreateNodeAt "diamond";
              DoubleClick 20 20; LeftClick 210 20; LeftClick 20 20].
Defined.

(** ** Further properties: committing an edit *)

(** X16: committing an edit (the Return key or a loss of focus) in a
    state the editor can reach writes the text of the entry into the
    current node, closes the entry, hides the palette and leaves no
    current node; a second commit changes nothing. *)
Theorem commit_closes_the_editor (s : t) (ed : Entry) :
  reachable s -> text_editor s = Some ed ->
  exists n,
    dict_get (nodes s) (entry_node ed) = Some n /\
    fst (finish_editing s) = Return tt /\
    nodes (step s ReturnOrFocusOut) =
      dict_set (nodes s) (entry_node ed) (Node.update_text n (entry_text ed)) /\
    edges (step s ReturnOrFocusOut) = edges s /\
    text_editor (step s ReturnOrFocusOut) = None /\
    editor_window_id (step s ReturnOrFocusOut) = None /\
    current_edit_node (step s ReturnOrFocusOut) = None /\
    palette_panel (step s ReturnOrFocusOut) = false /\
    step (step s ReturnOrFocusOut) ReturnOrFocusOut = step s ReturnOrFocusOut.
Proof.
  intros Hr He. pose proof (run_inv _ Hr) as H.
  destruct (run_more _ Hr) as (Hb & _).
  destruct (proj2 H) as [_ _ _ _ Hentry].
  destruct (Hentry ed He) as [n Hn]. pose proof (Hb ed He) as Hc.
  exists n. split; [exact Hn|].
  unfold step. simpl handler.
  rewrite (finish_editing_eq s), Hc, He, Hn, stop_editing_eq. simpl.
  rewrite He. simpl. repeat split.
Qed.

Lemma commit_closes_the_editor_witness :
  nodes (step (run [RightClick 10 10; CreateNodeAt "rectangle";
                    KeyRelease "Start"]) ReturnOrFocusOut) =
    [("A", Node.mk "A" 10 10 "Start" "rectangle" "#FFFFFF" (Some 100) (Some 50))]
  /\ text_editor (step (run [RightClick 10 10; CreateNodeAt "rectangle";
                             KeyRelease "Start"]) ReturnOrFocusOut) = None.
Proof.
  destruct (commit_closes_the_editor
              (run [RightClick 10 10; CreateNodeAt "rectangle";
                    KeyRelease "Start"])
              (mkEntry "Start" "A")) as (n & Hn & _ & E1 & _ & E2 & _).
  - now eexists.
  - reflexivity.
  - split; [|exact E2]. rewrite E1. injection Hn as <-. reflexivity.
Defined.

(** ** Further properties: the centre and the references *)



(** X18: in every run of the editor, every reference the editor holds
    designates a node of the store: the ends of the edges, the dragged
    node and the source of a pending connection (which all have their
    dimensions), the current node and the node of the entry; and the
    store holds each node under its own id. *)
Theorem references_are_valid (evs : list event) :
  refs_ok (run evs) /\
  Forall (fun kn => Node.id (snd kn) = fst kn) (nodes (run evs)).
Proof.
  destruct (run_inv (run evs)) as [[_ Hids] Hrefs]; [now exists evs|].
  now split.
Qed.
